(** * Task manager: the store (task_manager.py) and its WSGI front end
    (web_app.py), embedded shallowly and checked against the specification.

    Conventions of the embedding.
    - A Python [str] is a [string]; a character stands for the code point of
      the same number. That covers the code points below 256: all that a
      WSGI path or method can hold, and the range within which titles and
      form values are taken.
    - Python's unbounded [int] is [Z].
    - [datetime.now(UTC).isoformat()] is read from the environment: every
      operation that reads the clock takes the reading as its argument
      [now], one reading per call.
    - An operation that can raise returns a [result]; an operation that
      changes the manager or the file returns the new state next to it. *)

From Stdlib Require Import ZArith Ascii DecimalString DecimalPos DecimalZ.
From stdpp Require Import base tactics option list strings gmap.

Local Open Scope Z_scope.

(** ** Exceptions and results *)

Inductive exn :=
  | IndexError
  | ValueError (msg : string)
  | TypeError
  | JSONDecodeError
  | UnicodeDecodeError.

Inductive result (A : Type) :=
  | Return (a : A)
  | Raise (e : exn).
Arguments Return {A} a.
Arguments Raise {A} e.

Definition raises {A} (r : result A) : Prop :=
  match r with Raise _ => True | Return _ => False end.

(** ** Python list indexing

    [l[index]] and [l.pop(index)] share one bounds rule: a negative index
    counts from the end, and the access raises IndexError unless
    [-len(l) <= index < len(l)]. *)

Definition list_position (len : nat) (index : Z) : option nat :=
  let n := Z.of_nat len in
  let i := if index <? 0 then index + n else index in
  if (0 <=? i) && (i <? n) then Some (Z.to_nat i) else None.

(** [l[index]]: the element, with the position the index resolved to (the
    position identifies the object a later in-place update lands on). *)
Definition list_getitem {A} (l : list A) (index : Z) : result (nat * A) :=
  match list_position (length l) index with
  | Some i =>
      match l !! i with
      | Some x => Return (i, x)
      | None => Raise IndexError
      end
  | None => Raise IndexError
  end.

(** [l.pop(index)]: the element removed and the list that remains. *)
Definition list_pop {A} (l : list A) (index : Z) : result (A * list A) :=
  match list_position (length l) index with
  | Some i =>
      match l !! i with
      | Some x => Return (x, delete i l)
      | None => Raise IndexError
      end
  | None => Raise IndexError
  end.

(** ** task_manager.py *)

Module TaskStore.

(** *** class Task *)

Record Task := mkTask {
  title : string;
  description : string;
  completed : bool;
  created_at : string;
  completed_at : option string
}.

(** [Task(title=title, description=description)]: the remaining fields take
    their defaults, [created_at] from the clock. *)
Definition Task_new (now title description : string) : Task :=
  {| title := title; description := description; completed := false;
     created_at := now; completed_at := None |}.

(** [Task.complete] *)
Definition complete (now : string) (self : Task) : Task :=
  if negb (completed self)
  then {| title := title self; description := description self;
          completed := true; created_at := created_at self;
          completed_at := Some now |}
  else self.

(** *** The persisted file

    [json.load] and [json.dump] are library code. The file is represented by
    what reading it yields: bytes that are not UTF-8, text that is not JSON,
    or the JSON value the text denotes; [json.dump] followed by [json.load]
    gives back the value dumped. *)

Local Unset Elimination Schemes.
Inductive json :=
  | JNull
  | JBool (b : bool)
  | JInt (n : Z)
  | JFloat (literal : string)
  | JStr (s : string)
  | JArr (items : list json)
  | JObj (members : list (string * json)).
Local Set Elimination Schemes.

Inductive content :=
  | Undecodable
  | Malformed (text : string)
  | Document (value : json).

(** [task.__dict__] as [json.dump] writes it. *)
Definition Task_dict (task : Task) : json :=
  JObj [ ("title", JStr (title task));
         ("description", JStr (description task));
         ("completed", JBool (completed task));
         ("created_at", JStr (created_at task));
         ("completed_at",
           match completed_at task with Some s => JStr s | None => JNull end) ].

Definition dump (tasks : list Task) : content :=
  Document (JArr (Task_dict <$> tasks)).

(** *** class TaskManager

    [storage] is the file at [self.storage_path]: [None] when it does not
    exist. *)

Record TaskManager := mkTaskManager {
  storage : option content;
  tasks : list Task
}.

Definition with_tasks (self : TaskManager) (ts : list Task) : TaskManager :=
  {| storage := storage self; tasks := ts |}.

(** [for task in raw_tasks]: a list yields its items, a dict its keys, a
    string its characters; nothing else is iterable. (A JSON object is kept
    as the items of the dict [json.load] builds, keys pairwise distinct.) *)
Definition iterate (raw : json) : result (list json) :=
  match raw with
  | JArr items => Return items
  | JObj members => Return ((λ kv, JStr kv.1) <$> members)
  | JStr s => Return ((λ c, JStr (String c "")) <$> String.list_ascii_of_string s)
  | JNull | JBool _ | JInt _ | JFloat _ => Raise TypeError
  end.

Definition field_names : list string :=
  ["title"; "description"; "completed"; "created_at"; "completed_at"].

Fixpoint member (key : string) (kw : list (string * json)) : option json :=
  match kw with
  | [] => None
  | (k, v) :: kw => if bool_decide (k = key) then Some v else member key kw
  end.

(** A dataclass stores whatever value it is given. The record above is typed
    after the annotations, so a JSON value of another type has no image in
    it: constructing from such a value is [Untyped], which is neither a
    task of this model nor an exception. *)
Inductive outcome (A : Type) :=
  | Done (a : A)
  | Fails (e : exn)
  | Untyped.
Arguments Done {A} a.
Arguments Fails {A} e.
Arguments Untyped {A}.

Definition as_str (v : json) : option string :=
  match v with JStr s => Some s | _ => None end.
Definition as_bool (v : json) : option bool :=
  match v with JBool b => Some b | _ => None end.
Definition as_optional_str (v : json) : option (option string) :=
  match v with JNull => Some None | JStr s => Some (Some s) | _ => None end.

(** [Task] called on an unpacked dict (the double-star call in [load]):
    TypeError on a keyword that is no field and when the required [title] is
    missing; absent fields take their defaults. *)
Definition Task_of_kwargs (now : string) (kw : list (string * json))
  : outcome Task :=
  if negb (forallb (λ kv, bool_decide (kv.1 ∈ field_names)) kw)
  then Fails TypeError
  else
    match member "title" kw with
    | None => Fails TypeError
    | Some v_title =>
        match as_str v_title,
              from_option as_str (Some "") (member "description" kw),
              from_option as_bool (Some false) (member "completed" kw),
              from_option as_str (Some now) (member "created_at" kw),
              from_option as_optional_str (Some None)
                (member "completed_at" kw)
        with
        | Some t, Some d, Some c, Some at_, Some done_at =>
            Done (mkTask t d c at_ done_at)
        | _, _, _, _, _ => Untyped
        end
    end.

(** The same call for any JSON value: only a dict can be unpacked. *)
Definition Task_of_json (now : string) (task : json) : outcome Task :=
  match task with
  | JObj kw => Task_of_kwargs now kw
  | _ => Fails TypeError
  end.

(** The list comprehension of [load] over [raw_tasks]: the first element
    that raises ends it. *)
Fixpoint build_all (now : string) (raw_tasks : list json)
  : outcome (list Task) :=
  match raw_tasks with
  | [] => Done []
  | task :: rest =>
      match Task_of_json now task with
      | Fails e => Fails e
      | Done t =>
          match build_all now rest with
          | Done ts => Done (t :: ts)
          | other => other
          end
      | Untyped =>
          match build_all now rest with
          | Fails e => Fails e
          | _ => Untyped
          end
      end
  end.

Definition load (now : string) (self : TaskManager) : outcome TaskManager :=
  match storage self with
  | Some file =>
      match file with
      | Undecodable => Fails UnicodeDecodeError
      | Malformed _ => Fails JSONDecodeError
      | Document raw_tasks =>
          match iterate raw_tasks with
          | Raise e => Fails e
          | Return items =>
              match build_all now items with
              | Done ts => Done (with_tasks self ts)
              | Fails e => Fails e
              | Untyped => Untyped
              end
          end
      end
  | None => Done (with_tasks self [])
  end.

(** [TaskManager(storage_path)] over a disk holding [file] at that path. *)
Definition TaskManager_init (now : string) (file : option content)
  : outcome TaskManager :=
  load now {| storage := file; tasks := [] |}.

Definition save (self : TaskManager) : TaskManager :=
  {| storage := Some (dump (tasks self)); tasks := tasks self |}.

Definition add_task (now title description : string) (self : TaskManager)
  : Task * TaskManager :=
  let task := Task_new now title description in
  (task, save (with_tasks self (tasks self ++ [task]))).

Definition list_tasks (show_completed : bool) (self : TaskManager) : list Task :=
  if show_completed then tasks self
  else filter (λ task, ¬ completed task) (tasks self).

Definition invalid_index : exn := ValueError "Invalid task index".

Definition complete_task (now : string) (index : Z) (self : TaskManager)
  : result Task * TaskManager :=
  match list_getitem (tasks self) index with
  | Raise IndexError => (Raise invalid_index, self)
  | Raise e => (Raise e, self)
  | Return (i, task) =>
      let task := complete now task in
      (Return task, save (with_tasks self (<[i := task]> (tasks self))))
  end.

Definition delete_task (index : Z) (self : TaskManager)
  : result Task * TaskManager :=
  match list_pop (tasks self) index with
  | Raise IndexError => (Raise invalid_index, self)
  | Raise e => (Raise e, self)
  | Return (task, rest) => (Return task, save (with_tasks self rest))
  end.

Definition clear_completed (self : TaskManager) : TaskManager :=
  save (with_tasks self (filter (λ task, ¬ completed task) (tasks self))).

End TaskStore.

(** ** Python [str] and [int] operations used by web_app.py *)

Module Str.

Definition code (c : ascii) : nat := nat_of_ascii c.

Definition in_range (lo hi : nat) (c : ascii) : bool :=
  (lo <=? code c)%nat && (code c <=? hi)%nat.

(** [str.isspace] on code points below 256: 9-13, 28-32, 133, 160. *)
Definition isspace (c : ascii) : bool :=
  in_range 9 13 c || in_range 28 32 c || in_range 133 133 c
  || in_range 160 160 c.

Fixpoint lstrip_by (space : ascii → bool) (l : list ascii) : list ascii :=
  match l with
  | c :: rest => if space c then lstrip_by space rest else l
  | [] => []
  end.

Definition strip_by (space : ascii → bool) (l : list ascii) : list ascii :=
  reverse (lstrip_by space (reverse (lstrip_by space l))).

(** [s.strip()] *)
Definition strip (s : string) : string :=
  String.string_of_list_ascii
    (strip_by isspace (String.list_ascii_of_string s)).

(** [s.upper()]. The sharp s becomes two letters; the micro sign and the y
    with diaeresis have capitals above 255 and are left in place here, which
    no comparison with an ASCII literal can tell apart. *)
Definition upper_char (c : ascii) : string :=
  if in_range 97 122 c || (in_range 224 254 c && negb (in_range 247 247 c))
  then String (ascii_of_nat (code c - 32)) ""
  else if in_range 223 223 c then "SS"
  else String c "".

Fixpoint upper (s : string) : string :=
  match s with
  | EmptyString => ""
  | String c rest => upper_char c +:+ upper rest
  end.

(** [s.endswith(suffix)] *)
Definition endswith (s suffix : string) : bool :=
  let l := String.list_ascii_of_string s in
  let k := String.list_ascii_of_string suffix in
  bool_decide (length k ≤ length l)%nat
  && bool_decide (drop (length l - length k) l = k).

(** [s.split(sep, maxsplit)] for a one-character separator. *)
Fixpoint split (sep : ascii) (maxsplit : nat) (s : string) : list string :=
  match s with
  | EmptyString => [""]
  | String c rest =>
      if bool_decide (c = sep) then
        match maxsplit with
        | O => [s]
        | S m => "" :: split sep m rest
        end
      else
        match split sep maxsplit rest with
        | part :: parts => String c part :: parts
        | [] => [String c ""]
        end
  end.

(** [sep.join(parts)] *)
Fixpoint join (sep : string) (parts : list string) : string :=
  match parts with
  | [] => ""
  | [part] => part
  | part :: rest => part +:+ sep +:+ join sep rest
  end.

(** *** [int(s)]

    The literal may be surrounded by whitespace (for [int] that is 9-13, 32,
    133 and 160: the separators 28-31 are not skipped), may carry one sign,
    and is a run of decimal digits in which single underscores may stand
    between digits. More than [max_str_digits] digits are refused. *)

Definition int_space (c : ascii) : bool :=
  in_range 9 13 c || in_range 32 32 c || in_range 133 133 c
  || in_range 160 160 c.

Definition is_digit (c : ascii) : bool := in_range 48 57 c.

Definition digit_value (c : ascii) : Z := Z.of_nat (code c - 48).

Definition max_str_digits : nat := 4300.

(** Digits after the first: the value and the number of digits read so far
    are carried along; [after_digit] tells whether the last character was a
    digit (an underscore needs a digit on both sides). *)
Fixpoint int_digits (after_digit : bool) (acc : Z) (count : nat)
    (l : list ascii) : option (Z * nat) :=
  match l with
  | [] => if after_digit then Some (acc, count) else None
  | c :: rest =>
      if is_digit c then
        int_digits true (10 * acc + digit_value c) (S count) rest
      else if bool_decide (c = "_"%char) && after_digit then
        int_digits false acc count rest
      else None
  end.

Definition invalid_literal : exn :=
  ValueError "invalid literal for int() with base 10".
Definition too_many_digits : exn :=
  ValueError "Exceeds the limit for integer string conversion".

Definition int (s : string) : result Z :=
  let body := strip_by int_space (String.list_ascii_of_string s) in
  let '(negative, digits) :=
    match body with
    | c :: rest =>
        if bool_decide (c = "-"%char) then (true, rest)
        else if bool_decide (c = "+"%char) then (false, rest)
        else (false, body)
    | [] => (false, body)
    end in
  match int_digits false 0 0 digits with
  | Some (n, count) =>
      if (max_str_digits <? count)%nat then Raise too_many_digits
      else Return (if negative then - n else n)
  | None => Raise invalid_literal
  end.

(** *** [urllib.parse.urlencode] *)

Definition hex_digit (n : nat) : ascii :=
  ascii_of_nat (if (n <? 10)%nat then 48 + n else 55 + n).

Definition percent (byte : nat) : string :=
  String "%" (String (hex_digit (byte / 16)) (String (hex_digit (byte mod 16)) "")).

Definition always_safe (c : ascii) : bool :=
  in_range 65 90 c || in_range 97 122 c || in_range 48 57 c
  || bool_decide (c = "_"%char) || bool_decide (c = "."%char)
  || bool_decide (c = "-"%char) || bool_decide (c = "~"%char).

(** One character of [quote_plus]: the character is encoded in UTF-8 (two
    bytes from 128 on) and every byte outside the safe set is escaped; a
    space becomes a plus sign. *)
Definition quote_char (c : ascii) : string :=
  if always_safe c then String c ""
  else if bool_decide (c = " "%char) then "+"
  else if (code c <? 128)%nat then percent (code c)
  else percent (192 + code c / 64) +:+ percent (128 + code c mod 64).

Fixpoint quote_plus (s : string) : string :=
  match s with
  | EmptyString => ""
  | String c rest => quote_char c +:+ quote_plus rest
  end.

Definition urlencode (params : list (string * string)) : string :=
  join "&" ((λ kv, quote_plus kv.1 +:+ "=" +:+ quote_plus kv.2) <$> params).

End Str.

(** ** web_app.py *)

Module WebApp.
Import TaskStore.

(** The WSGI environment, after [setup_testing_defaults]. [post_body] is the
    request body as [parse_qs] sees it: [None] when the bytes read from
    [wsgi.input] do not decode, else the fields with their values. *)
Record environ := mkEnviron {
  REQUEST_METHOD : string;
  PATH_INFO : string;
  QUERY_STRING : string;
  post_body : option (gmap string (list string))
}.

(** What the application hands to the server: the status line and headers
    passed to [start_response], and the body returned. *)
Record response := mkResponse {
  status : string;
  headers : list (string * string);
  body : string
}.

(** A handler's run: the response with the file it leaves behind, or the
    exception that escapes it. Every exception of this module escapes before
    anything is written. *)
Definition reply : Type := outcome (response * option content).

Definition _read_post_data (env : environ) : result (gmap string string) :=
  match post_body env with
  | Some parsed => Return (omap head parsed)
  | None => Raise UnicodeDecodeError
  end.

Definition _redirect (message error : string) : response :=
  let params :=
    filter (λ kv, kv.2 ≠ "") [("message", message); ("error", error)] in
  let location :=
    if bool_decide (params = []) then "/"
    else "/" +:+ "?" +:+ Str.urlencode params in
  {| status := "303 See Other";
     headers := [("Location", location)];
     body := "" |}.

Definition _extract_index (path action : string) : result Z :=
  let invalid := ValueError ("Invalid " +:+ action +:+ " path: " +:+ path) in
  match Str.split "/" 3 path with
  | [_; _; index_part; _] =>
      match Str.int index_part with
      | Return index => Return index
      | Raise (ValueError _) | Raise IndexError => Raise invalid
      | Raise e => Raise e
      end
  | _ => Raise invalid
  end.

Definition _handle_add (now : string) (env : environ) (file : option content)
  : reply :=
  match _read_post_data env with
  | Raise e => Fails e
  | Return data =>
      let title := Str.strip (default "" (data !! "title")) in
      let description := Str.strip (default "" (data !! "description")) in
      if bool_decide (title = "")
      then Done (_redirect "" "Task title is required.", file)
      else
        match TaskManager_init now file with
        | Done manager =>
            let '(_, manager) := add_task now title description manager in
            Done (_redirect "Task added successfully." "", storage manager)
        | Fails e => Fails e
        | Untyped => Untyped
        end
  end.

Definition _handle_complete (now path : string) (file : option content)
  : reply :=
  match _extract_index path "complete" with
  | Raise e => Fails e
  | Return index =>
      match TaskManager_init now file with
      | Done manager =>
          match complete_task now index manager with
          | (Raise (ValueError _), manager) =>
              Done (_redirect "" "Unable to complete the selected task.",
                    storage manager)
          | (Raise e, _) => Fails e
          | (Return _, manager) =>
              Done (_redirect "Task marked as complete." "", storage manager)
          end
      | Fails e => Fails e
      | Untyped => Untyped
      end
  end.

Definition _handle_delete (now path : string) (file : option content)
  : reply :=
  match _extract_index path "delete" with
  | Raise e => Fails e
  | Return index =>
      match TaskManager_init now file with
      | Done manager =>
          match delete_task index manager with
          | (Raise (ValueError _), manager) =>
              Done (_redirect "" "Unable to delete the selected task.",
                    storage manager)
          | (Raise e, _) => Fails e
          | (Return _, manager) =>
              Done (_redirect "Task deleted." "", storage manager)
          end
      | Fails e => Fails e
      | Untyped => Untyped
      end
  end.

Definition _handle_clear (now : string) (file : option content) : reply :=
  match TaskManager_init now file with
  | Done manager =>
      Done (_redirect "Completed tasks cleared." "",
            storage (clear_completed manager))
  | Fails e => Fails e
  | Untyped => Untyped
  end.

Definition not_found : response :=
  {| status := "404 Not Found";
     headers := [("Content-Type", "text/plain; charset=utf-8")];
     body := "Not found" |}.

Section Dispatch.

(** The two GET handlers only render (the task list as HTML, the
    stylesheet); the dispatcher is stated over whatever they return. *)
Variable _handle_index : environ → option content → reply.
Variable _handle_static : option content → reply.

(** [TaskManagerWebApp.__call__] *)
Definition __call__ (now : string) (env : environ) (file : option content)
  : reply :=
  let method := Str.upper (REQUEST_METHOD env) in
  let path := if bool_decide (PATH_INFO env = "") then "/" else PATH_INFO env in
  if bool_decide (method = "GET") && bool_decide (path = "/")
  then _handle_index env file
  else if bool_decide (method = "GET")
          && bool_decide (path = "/static/styles.css")
  then _handle_static file
  else if bool_decide (method = "POST") && bool_decide (path = "/tasks")
  then _handle_add now env file
  else if bool_decide (method = "POST") && Str.endswith path "/complete"
  then _handle_complete now path file
  else if bool_decide (method = "POST") && Str.endswith path "/delete"
  then _handle_delete now path file
  else if bool_decide (method = "POST")
          && bool_decide (path = "/tasks/clear-completed")
  then _handle_clear now file
  else Done (not_found, file).

End Dispatch.

End WebApp.

(** ** More of Python's [str]: [str(n)], [replace], [html.escape], UTF-8 *)

Module Text.

(** [str(n)] for an int: decimal digits, a minus sign when negative. *)
Definition str_int (n : Z) : string := NilZero.string_of_int (Z.to_int n).

(** [s.replace(old, new)] for a one-character [old]. *)
Fixpoint replace (old : ascii) (new : string) (s : string) : string :=
  match s with
  | EmptyString => ""
  | String c rest =>
      if bool_decide (c = old) then new +:+ replace old new rest
      else String c (replace old new rest)
  end.

(** The double quote and the line feed, which the templates below are full
    of. *)
Definition dq : string := String (ascii_of_nat 34) "".
Definition nl : string := String (ascii_of_nat 10) "".

(** [html.escape(s)], with [quote=True]: five replacements in a row, the
    ampersand first. *)
Definition escape (s : string) : string :=
  let s := replace "&" "&amp;" s in
  let s := replace "<" "&lt;" s in
  let s := replace ">" "&gt;" s in
  let s := replace (ascii_of_nat 34) "&quot;" s in
  let s := replace "'" "&#x27;" s in
  s.

(** [s.encode("utf-8")]: one byte below 128, two bytes from there on. *)
Fixpoint utf8 (s : string) : string :=
  match s with
  | EmptyString => ""
  | String c rest =>
      if (Str.code c <? 128)%nat then String c (utf8 rest)
      else String (ascii_of_nat (192 + Str.code c / 64))
             (String (ascii_of_nat (128 + Str.code c mod 64)) (utf8 rest))
  end.

(** How often a character occurs in a string. *)
Fixpoint occurrences (c : ascii) (s : string) : nat :=
  match s with
  | EmptyString => 0
  | String c' rest =>
      (if bool_decide (c' = c) then 1 else 0) + occurrences c rest
  end.

End Text.

(** ** task_manager.py: the command line *)

Module Cli.
Import TaskStore.

(** What [parse_args] returns: [args.command] with the attributes of the
    subcommand chosen, defaults filled in ([argparse] itself is library
    code; when it rejects the command line the process exits there). *)
Inductive Namespace :=
  | Add (title description : string)
  | List (all : bool)
  | Complete (index : Z)
  | Delete (index : Z)
  | Clear
  | NoCommand.

(** A printed line is the sequence of its code points (the two status marks
    lie above 255). *)
Definition text : Type := list N.

Definition str (s : string) : text :=
  N_of_ascii <$> String.list_ascii_of_string s.

Definition check_mark : text := [10003%N].
Definition ballot_x : text := [10007%N].

(** The line printed for one task of the listing. *)
Definition list_line (index : nat) (task : Task) : text :=
  let status := if completed task then check_mark else ballot_x in
  let description :=
    if bool_decide (description task = "") then ""
    else " - " +:+ description task in
  str (Text.str_int (Z.of_nat index) +:+ ": [") ++ status
  ++ str ("] " +:+ title task +:+ description).

(** [main], from the constructed manager on: the lines printed and the file
    left behind. Only the ValueError of the store is caught. *)
Definition run (now : string) (args : Namespace) (manager : TaskManager)
  : result (list text * option content) :=
  match args with
  | Add title description =>
      let '(task, manager) := add_task now title description manager in
      Return ([str ("Added task: " +:+ TaskStore.title task)], storage manager)
  | List all =>
      let tasks := list_tasks all manager in
      Return ((match tasks with [] => [str "No tasks found."] | _ => [] end)
              ++ imap list_line tasks,
              storage manager)
  | Complete index =>
      match complete_task now index manager with
      | (Raise (ValueError error), manager) =>
          Return ([str error], storage manager)
      | (Raise e, _) => Raise e
      | (Return task, manager) =>
          Return ([str ("Completed task: " +:+ title task)], storage manager)
      end
  | Delete index =>
      match delete_task index manager with
      | (Raise (ValueError error), manager) =>
          Return ([str error], storage manager)
      | (Raise e, _) => Raise e
      | (Return task, manager) =>
          Return ([str ("Deleted task: " +:+ title task)], storage manager)
      end
  | Clear =>
      Return ([str "Cleared completed tasks."],
              storage (clear_completed manager))
  | NoCommand =>
      Return ([str "No command provided. Use -h for help."], storage manager)
  end.

(** [main]: the manager is constructed first, over the file at the default
    path; an exception of the constructor escapes before anything is
    printed. *)
Definition main (now : string) (args : Namespace) (file : option content)
  : outcome (list text * option content) :=
  match TaskManager_init now file with
  | Done manager =>
      match run now args manager with
      | Return done => Done done
      | Raise e => Fails e
      end
  | Fails e => Fails e
  | Untyped => Untyped
  end.

End Cli.

(** ** web_app.py: the pages *)

Module Pages.
Import TaskStore WebApp Text.

(** [_format_datetime] *)
Definition _format_datetime (value : option string) : string :=
  match value with
  | None => ""
  | Some value =>
      if bool_decide (value = "") then ""
      else escape (replace "T" " " value)
  end.

(** [TaskManagerWebApp._render_task] *)
Definition _render_task (task : Task) (index : nat) : string :=
  let classes := if completed task then "task completed" else "task" in
  let description :=
    if bool_decide (TaskStore.description task = "") then ""
    else Str.join "" [ "<p class="; dq; "task-description"; dq; ">";
                       escape (TaskStore.description task); "</p>" ] in
  let completed :=
    if completed task
       && match completed_at task with
          | Some at_ => negb (bool_decide (at_ = ""))
          | None => false
          end
    then Str.join "" [ "<span>Completed ";
                       _format_datetime (completed_at task); "</span>" ]
    else "" in
  let disabled := if TaskStore.completed task then " disabled" else "" in
  Str.join ""
    [ nl;
    "<li class="; dq; classes; dq; ">"; nl;
    "  <div class="; dq; "task-main"; dq; ">"; nl;
    "    <div class="; dq; "task-header"; dq; ">"; nl;
    "      <span class="; dq; "task-index"; dq; ">#";
      str_int (Z.of_nat index + 1); "</span>"; nl;
    "      <p class="; dq; "task-title"; dq; ">"; escape (title task); "</p>";
      nl;
    "    </div>"; nl;
    "    "; description; nl;
    "    <div class="; dq; "task-meta"; dq; ">"; nl;
    "      <span>Created "; _format_datetime (Some (created_at task));
      "</span>"; nl;
    "      "; completed; nl;
    "    </div>"; nl;
    "  </div>"; nl;
    "  <div class="; dq; "task-actions"; dq; ">"; nl;
    "    <form method="; dq; "post"; dq; " action="; dq; "/tasks/";
      str_int (Z.of_nat index); "/complete"; dq; ">"; nl;
    "      <button type="; dq; "submit"; dq; disabled; ">Complete</button>"; nl;
    "    </form>"; nl;
    "    <form method="; dq; "post"; dq; " action="; dq; "/tasks/";
      str_int (Z.of_nat index); "/delete"; dq; ">"; nl;
    "      <button type="; dq; "submit"; dq; " class="; dq; "danger"; dq;
      ">Delete</button>"; nl;
    "    </form>"; nl;
    "  </div>"; nl;
    "</li>"; nl ].

Section Index.

(** [urllib.parse.parse_qs], applied to the query string. *)
Variable parse_qs : string → gmap string (list string).

(** [query.get(key, [empty])[0]] *)
Definition first_value (query : gmap string (list string)) (key : string)
  : result string :=
  match default [""] (query !! key) with
  | value :: _ => Return value
  | [] => Raise IndexError
  end.

Definition alert (kind text : string) : string :=
  Str.join "" [ "<div class="; dq; "alert "; kind; dq; ">"; escape text;
                "</div>" ].

(** The page [_handle_index] builds from the message, the error and the
    tasks listed. *)
Definition index_page (message error : string) (tasks : list Task) : string :=
  let active_count :=
    length (filter (λ task, ¬ completed task) tasks) in
  let completed_count := (length tasks - active_count)%nat in
  let alerts :=
    (if bool_decide (message = "") then []
     else [alert "alert-success" message])
    ++ (if bool_decide (error = "") then []
        else [alert "alert-error" error]) in
  let alerts_html := Str.join "" alerts in
  let alerts_wrapper :=
    match alerts with
    | [] => ""
    | _ => Str.join "" [ "<div class="; dq; "alerts"; dq; ">"; alerts_html;
                         "</div>" ]
    end in
  let task_items := Str.join "" (imap (λ index task, _render_task task index) tasks) in
  let task_section :=
    if bool_decide (task_items = "")
    then Str.join "" [ "<p class="; dq; "empty"; dq;
                       ">No tasks yet. Add your first task above.</p>" ]
    else Str.join "" [ "<ul class="; dq; "task-list"; dq; ">"; task_items;
                       "</ul>" ] in
  let clear_button :=
    if bool_decide (completed_count = 0%nat) then ""
    else Str.join ""
           [ "<form method="; dq; "post"; dq; " action="; dq;
             "/tasks/clear-completed"; dq; " class="; dq; "clear-form"; dq;
             ">";
             "<button type="; dq; "submit"; dq;
             ">Clear completed tasks</button>";
             "</form>" ] in
  Str.join ""
    [ nl;
    "<!doctype html>"; nl;
    "<html lang="; dq; "en"; dq; ">"; nl;
    "  <head>"; nl;
    "    <meta charset="; dq; "utf-8"; dq; ">"; nl;
    "    <title>Task Manager</title>"; nl;
    "    <link rel="; dq; "stylesheet"; dq; " href="; dq;
      "/static/styles.css"; dq; ">"; nl;
    "  </head>"; nl;
    "  <body>"; nl;
    "    <main class="; dq; "layout"; dq; ">"; nl;
    "      <header>"; nl;
    "        <h1>Task Manager</h1>"; nl;
    "        <p class="; dq; "subtitle"; dq;
      ">Track your tasks, complete them, and stay organized.</p>"; nl;
    "      </header>"; nl;
    "      "; alerts_wrapper; nl;
    "      <section class="; dq; "panel"; dq; ">"; nl;
    "        <h2>Add a task</h2>"; nl;
    "        <form method="; dq; "post"; dq; " action="; dq; "/tasks"; dq;
      " class="; dq; "add-form"; dq; ">"; nl;
    "          <label for="; dq; "title"; dq; ">Title</label>"; nl;
    "          <input type="; dq; "text"; dq; " id="; dq; "title"; dq;
      " name="; dq; "title"; dq; " placeholder="; dq; "e.g. Buy groceries";
      dq; " required>"; nl;
    "          <label for="; dq; "description"; dq; ">Description</label>"; nl;
    "          <textarea id="; dq; "description"; dq; " name="; dq;
      "description"; dq; " rows="; dq; "3"; dq; " placeholder="; dq;
      "Optional details"; dq; "></textarea>"; nl;
    "          <button type="; dq; "submit"; dq; ">Add task</button>"; nl;
    "        </form>"; nl;
    "      </section>"; nl;
    "      <section class="; dq; "panel"; dq; ">"; nl;
    "        <div class="; dq; "panel-header"; dq; ">"; nl;
    "          <h2>Tasks ("; str_int (Z.of_nat (length tasks)); ")</h2>"; nl;
    "          <span>"; str_int (Z.of_nat active_count); " open</span>"; nl;
    "        </div>"; nl;
    "        "; task_section; nl;
    "        "; clear_button; nl;
    "      </section>"; nl;
    "    </main>"; nl;
    "  </body>"; nl;
    "</html>"; nl ].

(** [TaskManagerWebApp._handle_index] *)
Definition _handle_index (now : string) (env : environ)
    (file : option content) : reply :=
  let query := parse_qs (QUERY_STRING env) in
  match first_value query "message" with
  | Raise e => Fails e
  | Return message =>
      match first_value query "error" with
      | Raise e => Fails e
      | Return error =>
          match TaskManager_init now file with
          | Done manager =>
              let tasks := list_tasks true manager in
              let encoded := utf8 (index_page message error tasks) in
              Done ({| status := "200 OK";
                       headers :=
                         [ ("Content-Type", "text/html; charset=utf-8");
                           ("Content-Length",
                            str_int (Z.of_nat (String.length encoded))) ];
                       body := encoded |}, file)
          | Fails e => Fails e
          | Untyped => Untyped
          end
      end
  end.

(** [TaskManagerWebApp._handle_static]; [css] is the content of
    static/styles.css, [None] when that file does not exist. *)
Definition _handle_static (css : option string) (file : option content)
  : reply :=
  let data := default "" css in
  Done ({| status := "200 OK";
           headers := [ ("Content-Type", "text/css; charset=utf-8");
                        ("Content-Length",
                         str_int (Z.of_nat (String.length data))) ];
           body := data |}, file).

(** The application with its two GET handlers in place. *)
Definition app (css : option string) (now : string) (env : environ)
    (file : option content) : reply :=
  __call__ (_handle_index now) (_handle_static css) now env file.

End Index.

End Pages.

(** ** The vocabulary of the specification *)

Import TaskStore.

(** The data-model invariant: [completed_at] is present exactly when
    [completed] is true. *)
Definition task_inv (task : Task) : Prop :=
  is_Some (completed_at task) ↔ completed task = true.

Definition store_inv (ts : list Task) : Prop := Forall task_inv ts.

(** An index is in bounds for a sequence of [n] tasks when the list access
    accepts it; a negative one counts from the end, so that it resolves to
    the position [n + index]. *)
Definition in_bounds (n : nat) (index : Z) : Prop :=
  - Z.of_nat n ≤ index < Z.of_nat n.

Definition out_of_bounds (n : nat) (index : Z) : Prop :=
  index < - Z.of_nat n ∨ Z.of_nat n ≤ index.

Definition resolved (n : nat) (index : Z) : nat :=
  Z.to_nat (if index <? 0 then Z.of_nat n + index else index).

Definition active (task : Task) : Prop := completed task = false.

(** [kept] is the active part of [ts]: a subsequence of [ts] (same relative
    order, nothing new), made of active tasks only, that contains every
    subsequence of active tasks of [ts] (so no active task was dropped). *)
Definition active_part (kept ts : list Task) : Prop :=
  kept `sublist_of` ts
  ∧ Forall active kept
  ∧ ∀ l, l `sublist_of` ts → Forall active l → l `sublist_of` kept.

(** A title is blank when it holds nothing but whitespace (in particular
    when it is empty). *)
Definition blank (s : string) : bool :=
  forallb Str.isspace (String.list_ascii_of_string s).

(** A store that was just constructed where no file exists. *)
Definition empty_store : TaskManager := {| storage := None; tasks := [] |}.

(** ** Sample stores and requests *)

Definition only_task : Task := Task_new "2024-01-01T00:00:00+00:00" "Only task" "".
Definition one_task_store : TaskManager :=
  {| storage := Some (dump [only_task]); tasks := [only_task] |}.

Definition task_a : Task := Task_new "t1" "A" "".
Definition task_b : Task := Task_new "t2" "B" "first".
Definition task_c : Task := Task_new "t3" "C" "".
Definition three_task_store : TaskManager :=
  {| storage := Some (dump [task_a; task_b; task_c]);
     tasks := [task_a; task_b; task_c] |}.

Import WebApp.

Definition blank_post : environ :=
  {| REQUEST_METHOD := "POST"; PATH_INFO := "/tasks"; QUERY_STRING := "";
     post_body := Some {[ "title" := ["  "] ]} |}.

Definition abc_post : environ :=
  {| REQUEST_METHOD := "POST"; PATH_INFO := "/tasks/abc/complete";
     QUERY_STRING := ""; post_body := Some ∅ |}.

(** ** More vocabulary, for the properties beyond the specification *)

Import Text Cli Pages.


(** What of a task decides the markup of its list item: whether it is
    completed, whether its description is empty, whether it has a
    completion time to show. *)
Definition shape (task : Task) : bool * bool * bool :=
  (completed task,
   bool_decide (description task = ""),
   match completed_at task with
   | Some at_ => negb (bool_decide (at_ = ""))
   | None => false
   end).

(** The characters that delimit markup. *)
Definition markup_char (c : ascii) : bool :=
  bool_decide (c = "<"%char) || bool_decide (c = ">"%char)
  || bool_decide (c = ascii_of_nat 34).

(** The characters a redirect target is made of. *)
Definition url_char (c : ascii) : bool :=
  Str.always_safe c
  || bool_decide (c ∈ ["/"; "?"; "+"; "%"; "="; "&"]%char).

(** The number that the decimal digits [d] denote when they follow digits
    of value [acc]. *)
Fixpoint digits_value (acc : Z) (d : Decimal.uint) : Z :=
  match d with
  | Decimal.Nil => acc
  | Decimal.D0 d => digits_value (10 * acc + 0) d
  | Decimal.D1 d => digits_value (10 * acc + 1) d
  | Decimal.D2 d => digits_value (10 * acc + 2) d
  | Decimal.D3 d => digits_value (10 * acc + 3) d
  | Decimal.D4 d => digits_value (10 * acc + 4) d
  | Decimal.D5 d => digits_value (10 * acc + 5) d
  | Decimal.D6 d => digits_value (10 * acc + 6) d
  | Decimal.D7 d => digits_value (10 * acc + 7) d
  | Decimal.D8 d => digits_value (10 * acc + 8) d
  | Decimal.D9 d => digits_value (10 * acc + 9) d
  end.

(** The path of the form that [_render_task] writes for an action on the
    task numbered [index]. *)
Definition action_path (index : Z) (action : string) : string :=
  "/tasks/" +:+ str_int index +:+ "/" +:+ action.

(** The commands that only read. *)
Definition read_only (args : Namespace) : Prop :=
  match args with
  | List _ | NoCommand => True
  | Add _ _ | Complete _ | Delete _ | Clear => False
  end.

(** A request that no route matches. *)
Definition unrouted (env : environ) : Prop :=
  Str.upper (REQUEST_METHOD env) ≠ "POST"
  ∧ PATH_INFO env ∉ [""; "/"; "/static/styles.css"].

(** ** More samples *)

Definition done_a : Task := complete "t9" task_a.
Definition mixed_store : TaskManager :=
  {| storage := Some (dump [done_a; task_b; task_c]);
     tasks := [done_a; task_b; task_c] |}.



Definition script_task : Task :=
  {| title := "<script>alert(1)</script>"; description := "";
     completed := false; created_at := "t1"; completed_at := None |}.

Definition get_static : environ :=
  {| REQUEST_METHOD := "get"; PATH_INFO := "/static/styles.css";
     QUERY_STRING := ""; post_body := None |}.


Definition clear_post : environ :=
  {| REQUEST_METHOD := "POST"; PATH_INFO := "/tasks/clear-completed";
     QUERY_STRING := ""; post_body := None |}.

Definition put_request : environ :=
  {| REQUEST_METHOD := "PUT"; PATH_INFO := "/tasks"; QUERY_STRING := "";
     post_body := Some ∅ |}.

(** ** The library models on samples

    Each equation below was read off the Python functions modelled. *)

Example int_accepts_sign_space_underscore :
  Str.int " 7 " = Return 7 ∧ Str.int "-12" = Return (-12)
  ∧ Str.int "+1" = Return 1 ∧ Str.int "1_000" = Return 1000
  ∧ Str.int "007" = Return 7.
Proof. by vm_compute. Qed.

Example int_rejects :
  raises (Str.int "abc") ∧ raises (Str.int "") ∧ raises (Str.int "+")
  ∧ raises (Str.int "1__0") ∧ raises (Str.int "_1") ∧ raises (Str.int "1_")
  ∧ raises (Str.int "+ 1") ∧ raises (Str.int "1.0") ∧ raises (Str.int "0x1").
Proof. by vm_compute. Qed.

Example split_samples :
  Str.split "/" 3 "/tasks/1/complete" = [""; "tasks"; "1"; "complete"]
  ∧ Str.split "/" 3 "/tasks/1/x/complete" = [""; "tasks"; "1"; "x/complete"]
  ∧ Str.split "/" 3 "/complete" = [""; "complete"]
  ∧ Str.split "/" 3 "" = [""].
Proof. by vm_compute. Qed.

Example strip_samples :
  Str.strip "  a b  " = "a b" ∧ Str.strip "   " = "" ∧ Str.strip "" = "".
Proof. by vm_compute. Qed.

Example urlencode_samples :
  Str.urlencode [("error", "Task title is required.")]
  = "error=Task+title+is+required."
  ∧ Str.urlencode [("message", "a"); ("error", "b~_-./+")]
    = "message=a&error=b~_-.%2F%2B".
Proof. by vm_compute. Qed.

Example extract_index_samples :
  _extract_index "/tasks/12/complete" "complete" = Return 12
  ∧ _extract_index "/tasks/-1/delete" "delete" = Return (-1)
  ∧ _extract_index "/tasks/abc/complete" "complete"
    = Raise (ValueError "Invalid complete path: /tasks/abc/complete")
  ∧ _extract_index "/complete" "complete"
    = Raise (ValueError "Invalid complete path: /complete").
Proof. by vm_compute. Qed.

(** ** Auxiliary facts *)

Section list_access.
Context {A : Type}.
Implicit Types (l : list A) (index : Z) (i : nat).

Lemma list_position_in_bounds (n : nat) index :
  in_bounds n index →
  list_position n index = Some (resolved n index) ∧ (resolved n index < n)%nat.
Proof.
  unfold in_bounds, list_position, resolved. intros Hb.
  destruct (Z.ltb_spec index 0).
  - replace (index + Z.of_nat n) with (Z.of_nat n + index) by lia.
    destruct (Z.leb_spec 0 (Z.of_nat n + index)); [|lia].
    destruct (Z.ltb_spec (Z.of_nat n + index) (Z.of_nat n)); [|lia].
    simpl. split; [done | lia].
  - destruct (Z.leb_spec 0 index); [|lia].
    destruct (Z.ltb_spec index (Z.of_nat n)); [|lia].
    simpl. split; [done | lia].
Qed.

Lemma list_position_out_of_bounds (n : nat) index :
  out_of_bounds n index → list_position n index = None.
Proof.
  unfold out_of_bounds, list_position. intros Hb.
  destruct (Z.ltb_spec index 0).
  - destruct (Z.leb_spec 0 (index + Z.of_nat n)); [lia | done].
  - destruct (Z.leb_spec 0 index); [|done].
    destruct (Z.ltb_spec index (Z.of_nat n)); [lia | done].
Qed.

Lemma list_getitem_in_bounds l index :
  in_bounds (length l) index →
  ∃ x, l !! resolved (length l) index = Some x
       ∧ list_getitem l index = Return (resolved (length l) index, x)
       ∧ list_pop l index = Return (x, delete (resolved (length l) index) l).
Proof.
  intros [Hpos Hlt]%list_position_in_bounds.
  destruct (lookup_lt_is_Some_2 l _ Hlt) as [x Hx].
  exists x. unfold list_getitem, list_pop. by rewrite Hpos, Hx.
Qed.

Lemma list_getitem_out_of_bounds l index :
  out_of_bounds (length l) index →
  list_getitem l index = Raise IndexError ∧ list_pop l index = Raise IndexError.
Proof.
  intros Hpos%list_position_out_of_bounds.
  unfold list_getitem, list_pop. by rewrite Hpos.
Qed.
End list_access.

Section store_facts.
Implicit Types (self : TaskManager) (task : Task) (ts : list Task).

Lemma complete_task_in_bounds now index self :
  in_bounds (length (tasks self)) index →
  ∃ task, tasks self !! resolved (length (tasks self)) index = Some task
    ∧ complete_task now index self =
        (Return (complete now task),
         save (with_tasks self
                 (<[resolved (length (tasks self)) index := complete now task]>
                    (tasks self)))).
Proof.
  intros (task & Hat & Hget & _)%list_getitem_in_bounds.
  exists task. split; [done|]. unfold complete_task. by rewrite Hget.
Qed.

Lemma delete_task_in_bounds index self :
  in_bounds (length (tasks self)) index →
  ∃ task, tasks self !! resolved (length (tasks self)) index = Some task
    ∧ delete_task index self =
        (Return task,
         save (with_tasks self
                 (delete (resolved (length (tasks self)) index) (tasks self)))).
Proof.
  intros (task & Hat & _ & Hpop)%list_getitem_in_bounds.
  exists task. split; [done|]. unfold delete_task. by rewrite Hpop.
Qed.

Lemma complete_task_out_of_bounds now index self :
  out_of_bounds (length (tasks self)) index →
  complete_task now index self = (Raise invalid_index, self).
Proof.
  intros [Hget _]%(list_getitem_out_of_bounds (tasks self)).
  unfold complete_task. by rewrite Hget.
Qed.

Lemma delete_task_out_of_bounds index self :
  out_of_bounds (length (tasks self)) index →
  delete_task index self = (Raise invalid_index, self).
Proof.
  intros [_ Hpop]%(list_getitem_out_of_bounds (tasks self)).
  unfold delete_task. by rewrite Hpop.
Qed.

Lemma bounds_dec (n : nat) index : in_bounds n index ∨ out_of_bounds n index.
Proof. unfold in_bounds, out_of_bounds. lia. Qed.

Lemma complete_inv now task : task_inv task → task_inv (complete now task).
Proof.
  unfold task_inv, complete. destruct (completed task) eqn:E; simpl.
  - by rewrite E.
  - intros _. split; [done | by eexists].
Qed.

Lemma complete_completed now task :
  completed task = true → complete now task = task.
Proof. unfold complete. by intros ->. Qed.

Lemma Task_new_inv now title description :
  task_inv (Task_new now title description).
Proof. unfold task_inv. simpl. split; [by intros [? ?] | done]. Qed.
End store_facts.

Section active_facts.
Implicit Types (task : Task) (ts : list Task).

Lemma not_completed_active task : ¬ completed task ↔ active task.
Proof. unfold active. destruct (completed task); naive_solver. Qed.

Lemma filter_active_part ts :
  active_part (filter (λ task, ¬ completed task) ts) ts.
Proof.
  split_and!.
  - apply sublist_filter.
  - apply Forall_forall. intros task [H _]%list_elem_of_filter.
    by apply not_completed_active.
  - intros l Hsub. induction Hsub as [|x l1 l2 _ IH|x l1 l2 _ IH]; intros Hall.
    + apply sublist_nil_l.
    + apply Forall_cons in Hall as [Hx Hall].
      rewrite filter_cons_True by (by apply not_completed_active).
      apply sublist_skip. by apply IH.
    + rewrite filter_cons. destruct (decide (¬ completed x)).
      * apply sublist_cons. by apply IH.
      * by apply IH.
Qed.

(** The active part of a sequence is unique. *)
Lemma active_part_unique kept kept' ts :
  active_part kept ts → active_part kept' ts → kept = kept'.
Proof.
  intros (Hs & Ha & Hmax) (Hs' & Ha' & Hmax').
  apply (anti_symm sublist); auto.
Qed.
End active_facts.

(** ** The store *)



(** C2. The invariant "completed_at is present if and only if completed is
    true", when it holds of every task of the store, still holds of every
    task after [add_task], [complete_task], [delete_task] and
    [clear_completed], whatever their arguments and whether or not they
    raise. *)
Theorem invariant_preserved
    (now title description : string) (index : Z) (self : TaskManager) :
  store_inv (tasks self) →
  store_inv (tasks (add_task now title description self).2)
  ∧ store_inv (tasks (complete_task now index self).2)
  ∧ store_inv (tasks (delete_task index self).2)
  ∧ store_inv (tasks (clear_completed self)).
Proof.
  unfold store_inv. intros Hinv. split_and!.
  - simpl. apply Forall_app_2; [done|].
    apply Forall_singleton, Task_new_inv.
  - destruct (bounds_dec (length (tasks self)) index) as [Hin|Hout].
    + destruct (complete_task_in_bounds now index self Hin) as (task & Hat & ->).
      simpl. apply Forall_insert; [done|].
      apply complete_inv. by eapply Forall_lookup_1.
    + by rewrite complete_task_out_of_bounds.
  - destruct (bounds_dec (length (tasks self)) index) as [Hin|Hout].
    + destruct (delete_task_in_bounds index self Hin) as (task & Hat & ->).
      simpl. by apply Forall_delete.
    + by rewrite delete_task_out_of_bounds.
  - simpl. apply Forall_forall. intros task [_ Hin]%list_elem_of_filter.
    revert task Hin. by apply Forall_forall.
Qed.

Lemma invariant_preserved_witness :
  store_inv (tasks one_task_store)
  ∧ store_inv (tasks (add_task "t1" "B" "" one_task_store).2)
  ∧ store_inv (tasks (complete_task "t1" 0 one_task_store).2)
  ∧ store_inv (tasks (delete_task 0 one_task_store).2)
  ∧ store_inv (tasks (clear_completed one_task_store)).
Proof.
  assert (store_inv (tasks one_task_store)) as Hinv.
  { apply Forall_singleton, Task_new_inv. }
  split; [exact Hinv|].
  exact (invariant_preserved "t1" "B" "" 0 one_task_store Hinv).
Defined.



(** C4. On an index in bounds, [delete_task] returns the task at the
    position [i] the index resolves to and removes exactly that one: the
    tasks before [i] stay where they were, every later task moves down by
    one position, the length drops by one, and the shortened sequence is
    what is persisted. *)
Theorem delete_task_shifts (index : Z) (self : TaskManager) :
  in_bounds (length (tasks self)) index →
  let i := resolved (length (tasks self)) index in
  ∃ task self',
    tasks self !! i = Some task
    ∧ (0 ≤ index → i = Z.to_nat index)
    ∧ delete_task index self = (Return task, self')
    ∧ tasks self' = take i (tasks self) ++ drop (S i) (tasks self)
    ∧ (∀ j, (j < i)%nat → tasks self' !! j = tasks self !! j)
    ∧ (∀ j, (i ≤ j)%nat → tasks self' !! j = tasks self !! S j)
    ∧ S (length (tasks self')) = length (tasks self)
    ∧ storage self' = Some (dump (tasks self')).
Proof.
  intros Hin i.
  destruct (delete_task_in_bounds index self Hin) as (task & Hat & ->).
  fold i in Hat |- *. eexists _, _. split_and!; try done; simpl.
  - intros Hpos. unfold i, resolved. by destruct (Z.ltb_spec index 0); [lia|].
  - apply delete_take_drop.
  - intros j Hj. by apply list_lookup_delete_lt.
  - intros j Hj. by apply list_lookup_delete_ge.
  - rewrite length_delete by done.
    apply lookup_lt_Some in Hat. lia.
Qed.

Lemma delete_task_shifts_witness :
  ∃ task self',
    tasks three_task_store !! 1%nat = Some task
    ∧ delete_task 1 three_task_store = (Return task, self')
    ∧ S (length (tasks self')) = 3%nat.
Proof.
  destruct (delete_task_shifts 1 three_task_store)
    as (task & self' & Hat & _ & Hrun & _ & _ & _ & Hlen & _).
  - unfold in_bounds. simpl. lia.
  - exists task, self'. split_and!; assumption.
Defined.



(** C5. [clear_completed] keeps exactly the active part of the sequence:
    what remains is a subsequence of the old sequence in its old order, holds
    no completed task, and lost no task that was not completed; the result
    is persisted. In particular, from the empty store, add("A"), add("B"),
    complete(0), clear_completed() leaves list_tasks() with the single task
    "B", not completed. *)
Theorem clear_completed_keeps_active
    (now_a now_b now_c : string) (self : TaskManager) :
  active_part (tasks (clear_completed self)) (tasks self)
  ∧ (∀ task, task ∈ tasks (clear_completed self)
             ↔ task ∈ tasks self ∧ completed task = false)
  ∧ storage (clear_completed self) = Some (dump (tasks (clear_completed self)))
  ∧ (let s1 := (add_task now_a "A" "" empty_store).2 in
     let s2 := (add_task now_b "B" "" s1).2 in
     let s3 := (complete_task now_c 0 s2).2 in
     list_tasks true (clear_completed s3)
     = [ {| title := "B"; description := ""; completed := false;
            created_at := now_b; completed_at := None |} ]).
Proof.
  split_and!.
  - apply filter_active_part.
  - intros task. simpl. rewrite list_elem_of_filter, not_completed_active.
    unfold active. tauto.
  - done.
  - reflexivity.
Qed.

(** C6. [add_task] appends to the sequence a task with the given title and
    description (any title, the empty one included), completed = false, the
    clock reading as created_at and no completed_at, persists the longer
    sequence and returns that task. [list_tasks(True)] is the whole
    sequence and [list_tasks(False)] its active part, in the order of the
    sequence; [list_tasks] yields a list and no new manager. Listing after
    an add therefore ends with the new task, and on the empty store shows
    just that task. *)
Theorem add_task_then_list
    (now title description : string) (show_completed : bool)
    (self : TaskManager) :
  let new := {| title := title; description := description;
                completed := false; created_at := now;
                completed_at := None |} in
  let self' := {| storage := Some (dump (tasks self ++ [new]));
                  tasks := tasks self ++ [new] |} in
  add_task now title description self = (new, self')
  ∧ (add_task now "" description self).1
      = {| title := ""; description := description; completed := false;
           created_at := now; completed_at := None |}
  ∧ list_tasks true self = tasks self
  ∧ active_part (list_tasks false self) (tasks self)
  ∧ list_tasks show_completed self'
      = list_tasks show_completed self ++ [new]
  ∧ list_tasks show_completed
      (add_task now title description empty_store).2 = [new].
Proof.
  intros new self'. split_and!; try done.
  - apply filter_active_part.
  - destruct show_completed; [done|]. simpl. by rewrite filter_app.
  - by destruct show_completed.
Qed.

Section load_facts.
Implicit Types (task : Task) (ts : list Task).

Lemma Task_of_json_dict now task : Task_of_json now (Task_dict task) = Done task.
Proof. destruct task as [t d c a [done_at|]]; reflexivity. Qed.

Lemma build_all_dump now ts : build_all now (Task_dict <$> ts) = Done ts.
Proof.
  induction ts as [|task ts IH]; [done|].
  rewrite fmap_cons. cbn [build_all].
  by rewrite Task_of_json_dict, IH.
Qed.

(** Every exception of the constructor call is a TypeError, and one item
    that raises makes the whole comprehension raise. *)
Lemma Task_of_json_Fails now item e :
  Task_of_json now item = Fails e → e = TypeError.
Proof.
  destruct item as [| | | | | |kw]; simpl; try by intros [= <-].
  unfold Task_of_kwargs.
  destruct (negb _); [by intros [= <-]|].
  destruct (member "title" kw); [|by intros [= <-]].
  by repeat case_match.
Qed.

Lemma build_all_Fails now items item e :
  item ∈ items → Task_of_json now item = Fails e →
  build_all now items = Fails TypeError.
Proof.
  intros Hin Hitem. induction items as [|x items IH]; [by inversion Hin|].
  cbn [build_all]. destruct (Task_of_json now x) as [t|e'|] eqn:Ex.
  - apply elem_of_cons in Hin as [->|Hin]; [congruence|].
    by rewrite IH.
  - by rewrite (Task_of_json_Fails _ _ _ Ex).
  - apply elem_of_cons in Hin as [->|Hin]; [congruence|].
    by rewrite IH.
Qed.

(** A file holding a JSON list with an item that is no task record (not an
    object, an object with a key that is no field, or one without title)
    makes [load] raise TypeError. *)
Lemma load_bad_item now items item e ts :
  item ∈ items → Task_of_json now item = Fails e →
  load now {| storage := Some (Document (JArr items)); tasks := ts |}
  = Fails TypeError.
Proof.
  intros Hin Hitem. unfold load. simpl.
  by rewrite (build_all_Fails _ _ _ _ Hin Hitem).
Qed.

(** Two samples of what [load] does with JSON of another shape than a
    list of task records: an empty object iterates over no key and loads as
    the empty sequence; a list holding a number raises TypeError. *)
Lemma load_empty_object now ts :
  load now {| storage := Some (Document (JObj [])); tasks := ts |}
  = Done {| storage := Some (Document (JObj [])); tasks := [] |}.
Proof. reflexivity. Qed.

Lemma load_list_of_number now ts n :
  load now {| storage := Some (Document (JArr [JInt n])); tasks := ts |}
  = Fails TypeError.
Proof. reflexivity. Qed.
End load_facts.


(** ** The WSGI front end *)

Section str_facts.
Implicit Types (s : string) (l k : list ascii).

Lemma lstrip_by_all (space : ascii → bool) l :
  forallb space l = true → Str.lstrip_by space l = [].
Proof.
  induction l as [|c l IH]; [done|]. simpl.
  intros [-> Hl]%andb_true_iff. by apply IH.
Qed.

Lemma strip_blank s : blank s = true → Str.strip s = "".
Proof.
  unfold blank, Str.strip, Str.strip_by. intros Hs.
  by rewrite (lstrip_by_all _ _ Hs).
Qed.

Lemma endswith_true s suffix :
  Str.endswith s suffix = true →
  ∃ l, String.list_ascii_of_string s = l ++ String.list_ascii_of_string suffix.
Proof.
  unfold Str.endswith. intros [_ Hdrop%bool_decide_eq_true]%andb_true_iff.
  eexists. etrans; [symmetry; apply take_drop|]. by rewrite Hdrop.
Qed.

(** No path ends in both action names: five characters from the end the
    two suffixes differ. *)
Lemma endswith_delete_not_complete s :
  Str.endswith s "/delete" = true → Str.endswith s "/complete" = false.
Proof.
  intros [l Hl]%endswith_true.
  destruct (Str.endswith s "/complete") eqn:E; [|done].
  apply endswith_true in E as [k Hk]. rewrite Hl in Hk.
  apply (f_equal reverse) in Hk. rewrite !reverse_app in Hk.
  simpl in Hk. discriminate Hk.
Qed.

Lemma int_raises_ValueError s e :
  Str.int s = Raise e → ∃ msg, e = ValueError msg.
Proof.
  unfold Str.int.
  destruct (match Str.strip_by Str.int_space (String.list_ascii_of_string s)
            with [] => _ | _ :: _ => _ end) as [negative digits].
  destruct (Str.int_digits false 0 0 digits) as [[n count]|].
  - destruct (Str.max_str_digits <? count)%nat; [|done].
    intros [= <-]. by eexists.
  - intros [= <-]. by eexists.
Qed.

Lemma _extract_index_invalid path action :
  (∀ a b index_part rest,
     Str.split "/" 3 path = [a; b; index_part; rest] →
     raises (Str.int index_part)) →
  _extract_index path action
  = Raise (ValueError ("Invalid " +:+ action +:+ " path: " +:+ path)).
Proof.
  intros Hint. unfold _extract_index.
  destruct (Str.split "/" 3 path) as [|a [|b [|index_part [|rest [|? ?]]]]];
    try done.
  specialize (Hint _ _ _ _ eq_refl).
  destruct (Str.int index_part) as [n|e] eqn:E; [done|].
  by destruct (int_raises_ValueError _ _ E) as [msg ->].
Qed.
End str_facts.

Section front_end.
Variable _handle_index : environ → option content → reply.
Variable _handle_static : option content → reply.

(** C8. A POST to /tasks whose title field is absent, empty or made of
    whitespace only is answered by a 303 redirect to /?error=..., and the
    persisted file is the one the request found: no task was created. *)
Theorem blank_title_rejected
    (now : string) (env : environ) (file : option content)
    (data : gmap string string) :
  Str.upper (REQUEST_METHOD env) = "POST" →
  PATH_INFO env = "/tasks" →
  _read_post_data env = Return data →
  blank (default "" (data !! "title")) = true →
  __call__ _handle_index _handle_static now env file
  = Done ({| status := "303 See Other";
             headers := [("Location", "/?error=Task+title+is+required.")];
             body := "" |}, file).
Proof.
  intros Hmethod Hpath Hdata Htitle.
  unfold __call__. rewrite Hmethod, Hpath. simpl.
  unfold _handle_add. rewrite Hdata, (strip_blank _ Htitle). reflexivity.
Qed.

(** C10. A POST whose path ends in /complete or /delete and whose index
    segment (the third piece of the path split at its first three
    slashes) is missing or is not accepted by [int] is not answered at
    all: the ValueError raised by [_extract_index] escapes the handler and
    the application. *)
Theorem malformed_index_escapes
    (now : string) (env : environ) (file : option content)
    (action : string) :
  Str.upper (REQUEST_METHOD env) = "POST" →
  action = "complete" ∨ action = "delete" →
  Str.endswith (PATH_INFO env) ("/" +:+ action) = true →
  (∀ a b index_part rest,
     Str.split "/" 3 (PATH_INFO env) = [a; b; index_part; rest] →
     raises (Str.int index_part)) →
  __call__ _handle_index _handle_static now env file
  = Fails (ValueError
             ("Invalid " +:+ action +:+ " path: " +:+ PATH_INFO env)).
Proof.
  intros Hmethod Haction Hends Hint.
  assert (PATH_INFO env ≠ "") as Hempty.
  { intros E. rewrite E in Hends. by destruct Haction as [-> | ->]. }
  assert (PATH_INFO env ≠ "/tasks") as Htasks.
  { intros E. rewrite E in Hends. by destruct Haction as [-> | ->]. }
  unfold __call__. rewrite Hmethod.
  rewrite (bool_decide_eq_false_2 (PATH_INFO env = "") Hempty).
  rewrite (bool_decide_eq_false_2 (PATH_INFO env = "/tasks") Htasks).
  simpl. destruct Haction as [-> | ->].
  - change (Str.endswith (PATH_INFO env) "/complete" = true) in Hends.
    rewrite Hends. unfold _handle_complete.
    by rewrite _extract_index_invalid.
  - change (Str.endswith (PATH_INFO env) "/delete" = true) in Hends.
    rewrite (endswith_delete_not_complete _ Hends), Hends.
    unfold _handle_delete. by rewrite _extract_index_invalid.
Qed.
End front_end.

Lemma blank_title_rejected_witness :
  __call__ (λ _ _, Untyped) (λ _, Untyped) "t1" blank_post None
  = Done ({| status := "303 See Other";
             headers := [("Location", "/?error=Task+title+is+required.")];
             body := "" |}, None).
Proof.
  apply (blank_title_rejected _ _ "t1" blank_post None
           (omap head {[ "title" := ["  "] ]})).
  - reflexivity.
  - reflexivity.
  - reflexivity.
  - vm_compute. reflexivity.
Defined.

Lemma malformed_index_escapes_witness :
  __call__ (λ _ _, Untyped) (λ _, Untyped) "t1" abc_post None
  = Fails (ValueError "Invalid complete path: /tasks/abc/complete").
Proof.
  apply (malformed_index_escapes _ _ "t1" abc_post None "complete").
  - reflexivity.
  - left. reflexivity.
  - vm_compute. reflexivity.
  - intros a b index_part rest [= <- <- <- <-]. exact I.
Defined.

(** * Beyond the specification: further properties of the code *)

(** ** The store: persistence and algebra of the operations *)

Section store_more.
Implicit Types (self : TaskManager) (task : Task) (ts : list Task).

Lemma init_after_save now self :
  TaskManager_init now (storage (save self)) = Done (save self).
Proof.
  unfold TaskManager_init, load, save, dump. simpl.
  by rewrite build_all_dump.
Qed.

Lemma init_dump now ts :
  TaskManager_init now (Some (dump ts))
  = Done {| storage := Some (dump ts); tasks := ts |}.
Proof. apply (init_after_save now {| storage := None; tasks := ts |}). Qed.

Lemma init_storage now file manager :
  TaskManager_init now file = Done manager → storage manager = file.
Proof.
  unfold TaskManager_init, load. simpl.
  destruct file as [[| |raw]|]; try done.
  - destruct (iterate raw); [|done].
    destruct (build_all now a); try done. by intros [= <-].
  - by intros [= <-].
Qed.

Lemma filter_active_twice ts :
  filter (λ task, ¬ completed task) (filter (λ task, ¬ completed task) ts)
  = filter (λ task, ¬ completed task) ts.
Proof.
  induction ts as [|t ts IH]; [done|].
  rewrite (filter_cons _ t ts). destruct (decide (¬ completed t)) as [H|H].
  - by rewrite filter_cons_True, IH.
  - done.
Qed.

Lemma complete_fields now task :
  title (complete now task) = title task
  ∧ description (complete now task) = description task
  ∧ created_at (complete now task) = created_at task.
Proof. unfold complete. by destruct (completed task). Qed.
End store_more.



(** X2. [clear_completed] is idempotent, and after it the two listings
    coincide with the active listing from before. *)
Theorem clear_completed_idempotent (self : TaskManager) :
  clear_completed (clear_completed self) = clear_completed self
  ∧ list_tasks true (clear_completed self) = list_tasks false self
  ∧ list_tasks false (clear_completed self) = list_tasks false self.
Proof.
  unfold clear_completed, save, with_tasks, list_tasks. simpl.
  by rewrite filter_active_twice.
Qed.

(** X3. Deleting index -1 right after an add undoes the add: the task
    returned is the one just added, and the task sequence, in memory and on
    disk, is the one from before the add. *)
Theorem add_then_delete_last
    (now title description : string) (self : TaskManager) :
  let '(added, self') := add_task now title description self in
  ∃ self'',
    delete_task (-1) self' = (Return added, self'')
    ∧ tasks self'' = tasks self
    ∧ storage self'' = Some (dump (tasks self)).
Proof.
  simpl. set (new := Task_new now title description).
  set (self' := save (with_tasks self (tasks self ++ [new]))).
  assert (in_bounds (length (tasks self')) (-1)) as Hin.
  { unfold in_bounds. simpl. rewrite length_app. simpl. lia. }
  destruct (delete_task_in_bounds (-1) self' Hin) as (task & Hat & ->).
  assert (resolved (length (tasks self')) (-1) = length (tasks self)) as Hres.
  { unfold resolved. simpl. rewrite length_app. simpl. lia. }
  rewrite Hres in *. simpl in Hat.
  rewrite list_lookup_middle in Hat by done. injection Hat as <-.
  eexists. split; [done|]. simpl. by rewrite delete_middle, app_nil_r.
Qed.

(** X4. [complete_task], on any index, keeps the length of the sequence and
    at every position the title, description and created_at of the task
    there; a task that was already completed is left exactly as it was. *)
Theorem complete_task_keeps_identity
    (now : string) (index : Z) (self : TaskManager) (j : nat) (task : Task) :
  tasks self !! j = Some task →
  length (tasks (complete_task now index self).2) = length (tasks self)
  ∧ ∃ task',
      tasks (complete_task now index self).2 !! j = Some task'
      ∧ title task' = title task
      ∧ description task' = description task
      ∧ created_at task' = created_at task
      ∧ (completed task = true → task' = task).
Proof.
  intros Hj.
  destruct (bounds_dec (length (tasks self)) index) as [Hin|Hout].
  - destruct (complete_task_in_bounds now index self Hin) as (t & Hat & ->).
    simpl. rewrite length_insert. split; [done|].
    destruct (decide (resolved (length (tasks self)) index = j)) as [<-|Hne].
    + assert (t = task) as -> by congruence.
      exists (complete now task).
      rewrite list_lookup_insert_eq by (by eapply lookup_lt_Some).
      destruct (complete_fields now task) as (? & ? & ?).
      split_and!; try done. apply complete_completed.
    + exists task. by rewrite list_lookup_insert_ne.
  - rewrite complete_task_out_of_bounds by done. simpl.
    split; [done|]. by exists task.
Qed.

Lemma complete_task_keeps_identity_witness :
  length (tasks (complete_task "t7" 1 mixed_store).2) = 3%nat
  ∧ ∃ task',
      tasks (complete_task "t7" 1 mixed_store).2 !! 0%nat = Some task'
      ∧ title task' = title done_a
      ∧ description task' = description done_a
      ∧ created_at task' = created_at done_a
      ∧ (completed done_a = true → task' = done_a).
Proof.
  apply (complete_task_keeps_identity "t7" 1 mixed_store 0 done_a).
  reflexivity.
Defined.

Section load_more.
Implicit Types (item : json) (items : list json).


End load_more.


(** ** The command line *)

Section cli_facts.
Implicit Types (self manager : TaskManager) (task : Task) (ts : list Task).

Lemma filter_lookup_active ts j task :
  ts !! j = Some task → completed task = false →
  filter (λ t, ¬ completed t) ts
    !! length (filter (λ t, ¬ completed t) (take j ts)) = Some task.
Proof.
  intros Hj Hactive.
  assert (filter (λ t, ¬ completed t) ts
          = filter (λ t, ¬ completed t) (take j ts)
            ++ task :: filter (λ t, ¬ completed t) (drop (S j) ts)) as ->.
  { rewrite <- (filter_cons_True (λ t, ¬ completed t) task)
      by (by apply not_completed_active).
    rewrite <- filter_app. by rewrite take_drop_middle. }
  by apply list_lookup_middle.
Qed.

Lemma listing_lines ts :
  ts ≠ [] →
  (match ts with [] => [str "No tasks found."] | _ => [] end)
  ++ imap list_line ts = imap list_line ts.
Proof. by destruct ts. Qed.
End cli_facts.



(** X7. The number [list] prints in front of a task is its position in the
    listing, not in the store. With --all the two agree: the task at store
    position [j] is printed on line [j] with number [j], the index that
    [complete] and [delete] take. Without --all an active task at store
    position [j] is printed with the number of active tasks before it,
    which is smaller than [j] as soon as a completed task precedes it. *)
Theorem main_list_numbering
    (now : string) (file : option content) (manager : TaskManager)
    (j : nat) (task : Task) :
  TaskManager_init now file = Done manager →
  tasks manager !! j = Some task →
  let k := length (filter (λ t, ¬ completed t) (take j (tasks manager))) in
  (∃ out, main now (List true) file = Done (out, file)
          ∧ out !! j = Some (list_line j task))
  ∧ (completed task = false →
     ∃ out, main now (List false) file = Done (out, file)
            ∧ out !! k = Some (list_line k task))
  ∧ (k ≤ j)%nat
  ∧ (∀ i t, (i < j)%nat → tasks manager !! i = Some t →
            completed t = true → (k < j)%nat).
Proof.
  intros Hinit Hj k. unfold main, run. rewrite Hinit.
  rewrite (init_storage _ _ _ Hinit).
  assert (length (take j (tasks manager)) = j) as Htake.
  { rewrite length_take. apply lookup_lt_Some in Hj. lia. }
  split_and!.
  - eexists. split; [done|]. simpl.
    rewrite listing_lines by (intros E; by rewrite E in Hj).
    by rewrite list_lookup_imap, Hj.
  - intros Hactive. eexists. split; [done|]. simpl.
    pose proof (filter_lookup_active _ _ _ Hj Hactive) as Hk. fold k in Hk.
    rewrite listing_lines by (intros E; by rewrite E in Hk).
    by rewrite list_lookup_imap, Hk.
  - unfold k. rewrite <- Htake at 2. apply length_filter.
  - intros i t Hi Hi_t Hdone. unfold k. rewrite <- Htake at 2.
    apply (length_filter_lt _ _ t).
    + apply list_elem_of_lookup. exists i. by rewrite lookup_take_lt.
    + rewrite not_completed_active. unfold active. by rewrite Hdone.
Qed.

Lemma main_list_numbering_witness :
  (∃ out, main "t5" (List true) (storage mixed_store)
            = Done (out, storage mixed_store)
          ∧ out !! 1%nat = Some (list_line 1 task_b))
  ∧ (completed task_b = false →
     ∃ out, main "t5" (List false) (storage mixed_store)
              = Done (out, storage mixed_store)
            ∧ out !! 0%nat = Some (list_line 0 task_b))
  ∧ (0 ≤ 1)%nat
  ∧ (∀ i t, (i < 1)%nat → tasks mixed_store !! i = Some t →
            completed t = true → (0 < 1)%nat).
Proof.
  apply (main_list_numbering "t5" (storage mixed_store) mixed_store 1 task_b).
  - reflexivity.
  - reflexivity.
Defined.



(** X9. [list] and a missing command never write: whatever the file holds
    (or when there is none), if [main] ends normally the file is as it was;
    in particular no file is created. *)
Theorem main_read_only
    (now : string) (args : Namespace) (file file' : option content)
    (out : list text) :
  read_only args →
  main now args file = Done (out, file') →
  file' = file.
Proof.
  intros Hargs. unfold main.
  destruct (TaskManager_init now file) as [manager| |] eqn:Hinit; try done.
  apply init_storage in Hinit.
  destruct args; try done; simpl; by intros [= _ <-].
Qed.

Lemma main_read_only_witness :
  main "t5" (List false) None = Done ([str "No tasks found."], None)
  ∧ None = (None : option content).
Proof.
  split; [reflexivity|].
  apply (main_read_only "t5" (List false) None None [str "No tasks found."]).
  - exact I.
  - reflexivity.
Defined.

(** ** The WSGI front end: routes and what they leave on disk *)

Section route_facts.
Implicit Types (s path : string) (l : list ascii).






End route_facts.

Section routes.
Variable _handle_index : environ → option content → reply.
Variable _handle_static : option content → reply.

(** X10. A request whose method is not POST and whose path is neither "/"
    (or empty) nor the stylesheet is answered 404 Not Found and leaves the
    file untouched; so is, for one, every PUT or DELETE request. *)
Theorem unrouted_request_not_found
    (now : string) (env : environ) (file : option content) :
  unrouted env →
  __call__ _handle_index _handle_static now env file
  = Done ({| status := "404 Not Found";
             headers := [("Content-Type", "text/plain; charset=utf-8")];
             body := "Not found" |}, file).
Proof.
  intros [Hmethod Hpath]. unfold __call__.
  rewrite (bool_decide_eq_false_2 _ Hmethod). simpl.
  assert (PATH_INFO env ≠ "") as H1 by (intros E; apply Hpath; rewrite E; set_solver).
  rewrite (bool_decide_eq_false_2 _ H1).
  assert (PATH_INFO env ≠ "/") as H2 by (intros E; apply Hpath; rewrite E; set_solver).
  assert (PATH_INFO env ≠ "/static/styles.css") as H3
    by (intros E; apply Hpath; rewrite E; set_solver).
  rewrite (bool_decide_eq_false_2 _ H2), (bool_decide_eq_false_2 _ H3).
  by rewrite !andb_false_r.
Qed.



End routes.

Lemma unrouted_request_not_found_witness :
  __call__ (λ _ _, Untyped) (λ _, Untyped) "t5" put_request None
  = Done ({| status := "404 Not Found";
             headers := [("Content-Type", "text/plain; charset=utf-8")];
             body := "Not found" |}, None).
Proof.
  apply (unrouted_request_not_found _ _ "t5" put_request None).
  split.
  - vm_compute. discriminate.
  - simpl. rewrite !not_elem_of_cons. split_and!; try discriminate.
    apply not_elem_of_nil.
Defined.




(** ** Numbers in paths *)

Section decimal_facts.
Implicit Types (d : Decimal.uint) (l : list ascii) (s : string) (c : ascii).

Lemma digit_not_space c :
  Str.is_digit c = true ∨ c = "-"%char →
  Str.int_space c = false ∧ c ≠ "/"%char ∧ c ≠ "+"%char.
Proof.
  intros [H| ->]; [|done]. revert H.
  by destruct c as [[] [] [] [] [] [] [] []].
Qed.

Lemma uint_chars d :
  Forall (λ c, Str.is_digit c = true)
    (String.list_ascii_of_string (NilEmpty.string_of_uint d)).
Proof. induction d; simpl; by constructor. Qed.

Lemma uint_length d :
  length (String.list_ascii_of_string (NilEmpty.string_of_uint d))
  = Decimal.nb_digits d.
Proof. induction d; simpl; by f_equal. Qed.

Lemma int_digits_uint d (b : bool) (acc : Z) (count : nat) :
  d ≠ Decimal.Nil ∨ b = true →
  Str.int_digits b acc count
    (String.list_ascii_of_string (NilEmpty.string_of_uint d))
  = Some (digits_value acc d, (count + Decimal.nb_digits d)%nat).
Proof.
  revert b acc count.
  induction d as [|d IH|d IH|d IH|d IH|d IH|d IH|d IH|d IH|d IH|d IH];
    intros b acc count Hb.
  - destruct Hb as [?| ->]; [done|]. simpl. by rewrite Nat.add_0_r.
  - cbn. rewrite IH by (by right). by rewrite Nat.add_succ_r.
  - cbn. rewrite IH by (by right). by rewrite Nat.add_succ_r.
  - cbn. rewrite IH by (by right). by rewrite Nat.add_succ_r.
  - cbn. rewrite IH by (by right). by rewrite Nat.add_succ_r.
  - cbn. rewrite IH by (by right). by rewrite Nat.add_succ_r.
  - cbn. rewrite IH by (by right). by rewrite Nat.add_succ_r.
  - cbn. rewrite IH by (by right). by rewrite Nat.add_succ_r.
  - cbn. rewrite IH by (by right). by rewrite Nat.add_succ_r.
  - cbn. rewrite IH by (by right). by rewrite Nat.add_succ_r.
  - cbn. rewrite IH by (by right). by rewrite Nat.add_succ_r.
Qed.

Lemma digits_value_pos d (p : positive) :
  digits_value (Z.pos p) d = Z.pos (Pos.of_uint_acc d p).
Proof.
  revert p. induction d; intros p; simpl; [done|..];
    rewrite <- IHd; f_equal; lia.
Qed.

Lemma digits_value_0 d : digits_value 0 d = Z.of_N (Pos.of_uint d).
Proof.
  induction d; simpl; [done|done|..]; by rewrite <- digits_value_pos.
Qed.

Lemma lstrip_by_id (space : ascii → bool) l :
  (∀ c, head l = Some c → space c = false) → Str.lstrip_by space l = l.
Proof. destruct l as [|c l]; [done|]. intros H. simpl. by rewrite H. Qed.

Lemma strip_by_id (space : ascii → bool) l :
  Forall (λ c, space c = false) l → Str.strip_by space l = l.
Proof.
  intros Hall. rewrite Forall_forall in Hall. unfold Str.strip_by.
  rewrite (lstrip_by_id space l).
  - rewrite lstrip_by_id; [apply reverse_involutive|].
    intros c Hc. apply head_Some_elem_of in Hc.
    rewrite elem_of_reverse in Hc. by apply Hall.
  - intros c Hc. apply head_Some_elem_of in Hc. by apply Hall.
Qed.
End decimal_facts.

Section path_facts.
Implicit Types (s rest suffix : string) (sep c : ascii).

Lemma chars_append s1 s2 :
  String.list_ascii_of_string (s1 +:+ s2)
  = String.list_ascii_of_string s1 ++ String.list_ascii_of_string s2.
Proof. induction s1 as [|c s1 IH]; simpl; [done|]. by rewrite IH. Qed.

Lemma append_assoc s1 s2 s3 : (s1 +:+ s2) +:+ s3 = s1 +:+ s2 +:+ s3.
Proof.
  induction s1 as [|c s1 IH]; [done|].
  change (String c ((s1 +:+ s2) +:+ s3) = String c (s1 +:+ s2 +:+ s3)).
  by f_equal.
Qed.

Lemma endswith_append s suffix : Str.endswith (s +:+ suffix) suffix = true.
Proof.
  unfold Str.endswith. rewrite chars_append, length_app.
  apply andb_true_iff. split; apply bool_decide_eq_true.
  - lia.
  - replace (_ + _ - _)%nat
      with (length (String.list_ascii_of_string s)) by lia.
    apply drop_app_length.
Qed.

Lemma split_zero sep s : Str.split sep 0 s = [s].
Proof.
  induction s as [|c s IH]; [done|]. simpl.
  case_bool_decide; [done|]. by rewrite IH.
Qed.

Lemma split_no_sep sep s rest (m : nat) :
  sep ∉ String.list_ascii_of_string s →
  Str.split sep (S m) (s +:+ String sep rest) = s :: Str.split sep m rest.
Proof.
  induction s as [|c s IH]; simpl; intros Hs.
  - by rewrite bool_decide_eq_true_2.
  - apply not_elem_of_cons in Hs as [Hc Hs].
    rewrite bool_decide_eq_false_2 by done. by rewrite IH.
Qed.

Lemma str_int_chars (n : Z) :
  Forall (λ c, Str.is_digit c = true ∨ c = "-"%char)
    (String.list_ascii_of_string (str_int n)).
Proof.
  assert (∀ d, Forall (λ c, Str.is_digit c = true ∨ c = "-"%char)
                 (String.list_ascii_of_string (NilZero.string_of_uint d)))
    as Huint.
  { intros d.
    destruct d;
      try (eapply Forall_impl; [apply uint_chars | by intros c Hc; left]).
    repeat constructor. }
  unfold str_int. destruct (Z.to_int n) as [d|d]; simpl.
  - apply Huint.
  - constructor; [by right | apply Huint].
Qed.

Lemma int_uint (negative : bool) (d : Decimal.uint) :
  d ≠ Decimal.Nil →
  (Decimal.nb_digits d ≤ Str.max_str_digits)%nat →
  Str.int (NilZero.string_of_int
             (if negative then Decimal.Neg d else Decimal.Pos d))
  = Return (if negative then - Z.of_N (Pos.of_uint d)
            else Z.of_N (Pos.of_uint d)).
Proof.
  intros Hd Hlen. unfold Str.int.
  assert (NilZero.string_of_uint d = NilEmpty.string_of_uint d) as Hs
    by (by destruct d).
  assert (Forall (λ c, Str.int_space c = false)
            (String.list_ascii_of_string (NilEmpty.string_of_uint d)))
    as Hspace.
  { eapply Forall_impl; [apply uint_chars|].
    intros c Hc. by apply digit_not_space; left. }
  pose proof (int_digits_uint d false 0 0 (or_introl Hd)) as Hdigits.
  rewrite digits_value_0 in Hdigits. simpl in Hdigits.
  assert ((Str.max_str_digits <? Decimal.nb_digits d)%nat = false) as Hmax
    by (by apply Nat.ltb_ge).
  destruct negative; simpl; rewrite Hs.
  - rewrite strip_by_id by (constructor; [done | apply Hspace]).
    simpl. by rewrite Hdigits, Hmax.
  - rewrite strip_by_id by done.
    destruct (String.list_ascii_of_string (NilEmpty.string_of_uint d))
      as [|c l] eqn:El.
    { by destruct d. }
    assert (Str.is_digit c = true) as Hc.
    { pose proof (uint_chars d) as H. rewrite El in H. by inversion H. }
    destruct (digit_not_space c (or_introl Hc)) as (_ & _ & Hplus).
    assert (c ≠ "-"%char) as Hminus by (by intros ->).
    rewrite !bool_decide_eq_false_2 by done.
    by rewrite Hdigits, Hmax.
Qed.

Lemma length_chars s :
  length (String.list_ascii_of_string s) = String.length s.
Proof. induction s as [|c s IH]; simpl; [done|]. by rewrite IH. Qed.

Lemma int_str_int (n : Z) :
  (String.length (str_int n) ≤ Str.max_str_digits)%nat →
  Str.int (str_int n) = Return n.
Proof.
  unfold str_int. destruct n as [|p|p].
  - intros _. by vm_compute.
  - change (Z.to_int (Z.pos p)) with (Decimal.Pos (Pos.to_uint p)).
    pose proof (Unsigned.to_uint_nonnil p) as Hd. intros Hlen.
    rewrite (int_uint false _ Hd); [by rewrite Unsigned.of_to|].
    rewrite <- uint_length, length_chars.
    revert Hlen. simpl. by destruct (Pos.to_uint p).
  - change (Z.to_int (Z.neg p)) with (Decimal.Neg (Pos.to_uint p)).
    pose proof (Unsigned.to_uint_nonnil p) as Hd. intros Hlen.
    rewrite (int_uint true _ Hd); [by rewrite Unsigned.of_to|].
    rewrite <- uint_length, length_chars.
    revert Hlen. simpl. destruct (Pos.to_uint p); [done|..]; simpl; lia.
Qed.

Lemma action_path_split (index : Z) (action : string) :
  Str.split "/" 3 (action_path index action)
  = [""; "tasks"; str_int index; action].
Proof.
  unfold action_path.
  change (Str.split "/" 3 (String "/" ("tasks" +:+ String "/"
            (str_int index +:+ String "/" action)))
          = [""; "tasks"; str_int index; action]).
  cbn [Str.split]. rewrite bool_decide_eq_true_2 by done.
  rewrite split_no_sep
    by (simpl; rewrite !not_elem_of_cons; split_and!;
        [done.. | apply not_elem_of_nil]).
  rewrite split_no_sep, split_zero; [done|].
  intros Hin. pose proof (str_int_chars index) as Hall.
  rewrite Forall_forall in Hall. apply Hall in Hin.
  by destruct (digit_not_space _ Hin) as (_ & ? & _).
Qed.
End path_facts.

(** X14. The paths that the task list writes into its forms come back as
    the index they were written for: for every index whose decimal form
    has at most 4300 characters (the limit of [int]) and every action,
    [_extract_index] applied to /tasks/<index>/<action> returns that index,
    and the path ends in /<action>, so that it reaches the handler. *)
Theorem action_path_round_trip (index : Z) (action : string) :
  (String.length (str_int index) ≤ 4300)%nat →
  _extract_index (action_path index action) action = Return index
  ∧ Str.endswith (action_path index action) ("/" +:+ action) = true.
Proof.
  intros Hlen. split.
  - unfold _extract_index. rewrite action_path_split.
    by rewrite int_str_int.
  - unfold action_path. rewrite <- append_assoc. apply endswith_append.
Qed.

Lemma action_path_round_trip_witness :
  _extract_index (action_path 12 "complete") "complete" = Return 12
  ∧ Str.endswith (action_path 12 "complete") ("/" +:+ "complete") = true.
Proof.
  apply (action_path_round_trip 12 "complete"). vm_compute. lia.
Defined.

Section redirect_facts.
Implicit Types (s : string) (c : ascii) (params : list (string * string)).

Lemma quote_char_safe c :
  forallb url_char (String.list_ascii_of_string (Str.quote_char c)) = true.
Proof. by destruct c as [[] [] [] [] [] [] [] []]. Qed.

Lemma quote_plus_safe s :
  forallb url_char (String.list_ascii_of_string (Str.quote_plus s)) = true.
Proof.
  induction s as [|c s IH]; [done|]. cbn [Str.quote_plus].
  by rewrite chars_append, forallb_app, quote_char_safe, IH.
Qed.

Lemma join_cons2 (sep part next : string) (parts : list string) :
  Str.join sep (part :: next :: parts)
  = part +:+ sep +:+ Str.join sep (next :: parts).
Proof. reflexivity. Qed.

Lemma join_safe (sep : string) (parts : list string) :
  forallb url_char (String.list_ascii_of_string sep) = true →
  Forall (λ part,
            forallb url_char (String.list_ascii_of_string part) = true) parts →
  forallb url_char (String.list_ascii_of_string (Str.join sep parts)) = true.
Proof.
  intros Hsep Hall.
  induction Hall as [|part parts Hpart Hall IH]; [done|].
  destruct parts as [|next parts]; [done|].
  by rewrite join_cons2, !chars_append, !forallb_app, Hpart, Hsep, IH.
Qed.

Lemma urlencode_safe params :
  forallb url_char (String.list_ascii_of_string (Str.urlencode params)) = true.
Proof.
  unfold Str.urlencode. apply join_safe; [done|].
  apply Forall_fmap, Forall_forall. intros [k v] _. simpl.
  by rewrite !chars_append, !forallb_app, !quote_plus_safe.
Qed.
End redirect_facts.

(** X15. Whatever message and error it is given, [_redirect] answers
    303 See Other with a single Location header and an empty body, and the
    location is made of URL characters only (letters, digits and
    [_.-~/?+%=&]): no space, carriage return or line feed of the texts
    reaches the header. *)
Theorem redirect_location_safe (message error : string) :
  ∃ location,
    _redirect message error
    = {| status := "303 See Other";
         headers := [("Location", location)];
         body := "" |}
    ∧ forallb url_char (String.list_ascii_of_string location) = true
    ∧ url_char " " = false
    ∧ url_char (ascii_of_nat 13) = false
    ∧ url_char (ascii_of_nat 10) = false.
Proof.
  unfold _redirect. eexists. split; [done|]. split; [|done].
  case_bool_decide; [done|].
  rewrite !chars_append, !forallb_app. by rewrite urlencode_safe.
Qed.

(** ** The pages: user text never becomes markup *)

Section markup_facts.
Implicit Types (s : string) (c old : ascii) (parts : list string).

Lemma occurrences_append c s1 s2 :
  occurrences c (s1 +:+ s2) = (occurrences c s1 + occurrences c s2)%nat.
Proof.
  induction s1 as [|c' s1 IH]; [done|].
  change (occurrences c (String c' (s1 +:+ s2))
          = (occurrences c (String c' s1) + occurrences c s2)%nat).
  cbn [occurrences]. rewrite IH. lia.
Qed.

Lemma occurrences_join_nil c : occurrences c (Str.join "" []) = 0%nat.
Proof. done. Qed.

Lemma occurrences_join_cons c s parts :
  occurrences c (Str.join "" (s :: parts))
  = (occurrences c s + occurrences c (Str.join "" parts))%nat.
Proof.
  destruct parts as [|next parts].
  - simpl. lia.
  - by rewrite join_cons2, !occurrences_append.
Qed.

Lemma occurrences_replace c old (new s : string) :
  occurrences c new = 0%nat →
  occurrences c (replace old new s)
  = if bool_decide (c = old) then 0%nat else occurrences c s.
Proof.
  intros Hnew. induction s as [|c' s IH]; [by case_bool_decide|].
  cbn [replace]. destruct (decide (c' = old)) as [->|Hold].
  - rewrite (bool_decide_eq_true_2 (old = old)) by done.
    rewrite occurrences_append, Hnew, IH. cbn [occurrences].
    destruct (decide (c = old)) as [->|Hc].
    + by rewrite !bool_decide_eq_true_2.
    + rewrite (bool_decide_eq_false_2 (c = old)) by done.
      by rewrite (bool_decide_eq_false_2 (old = c)).
  - rewrite (bool_decide_eq_false_2 (c' = old)) by done.
    cbn [occurrences]. rewrite IH.
    destruct (decide (c = old)) as [->|Hc].
    + rewrite (bool_decide_eq_true_2 (old = old)) by done.
      by rewrite (bool_decide_eq_false_2 (c' = old)).
    + by rewrite (bool_decide_eq_false_2 (c = old)).
Qed.

Lemma markup_char_cases c :
  markup_char c = true →
  c = "<"%char ∨ c = ">"%char ∨ c = ascii_of_nat 34.
Proof.
  unfold markup_char. intros H.
  repeat (apply orb_true_iff in H as [H|H]);
    apply bool_decide_eq_true in H; auto.
Qed.

(** [html.escape] leaves no markup character and no apostrophe. *)
Lemma occurrences_escape c s :
  markup_char c = true ∨ c = "'"%char → occurrences c (escape s) = 0%nat.
Proof.
  intros [[->|[->| ->]]%markup_char_cases| ->]; unfold escape;
    by rewrite !occurrences_replace.
Qed.

Lemma occurrences_str_int c (n : Z) :
  Str.is_digit c = false → c ≠ "-"%char → occurrences c (str_int n) = 0%nat.
Proof.
  intros Hdigit Hminus. pose proof (str_int_chars n) as Hall.
  induction (str_int n) as [|c' s IH]; [done|].
  simpl in Hall. apply Forall_cons in Hall as [Hc' Hall].
  cbn [occurrences]. rewrite (IH Hall).
  rewrite bool_decide_eq_false_2; [done|].
  intros ->. destruct Hc'; congruence.
Qed.

Lemma occurrences_str_int_markup c (n : Z) :
  markup_char c = true → occurrences c (str_int n) = 0%nat.
Proof.
  intros [->|[->| ->]]%markup_char_cases; by apply occurrences_str_int.
Qed.
End markup_facts.

Lemma occurrences_format_datetime (value : option string) (c : ascii) :
  markup_char c = true ∨ c = "'"%char ∨ c = "T"%char →
  occurrences c (_format_datetime value) = 0%nat.
Proof.
  intros Hc. unfold _format_datetime.
  destruct value as [value|]; [|done]. case_bool_decide; [done|].
  destruct Hc as [Hc|[Hc| ->]].
  - apply occurrences_escape. by left.
  - apply occurrences_escape. by right.
  - unfold escape. by rewrite !occurrences_replace.
Qed.

(** X16. [_format_datetime] returns the empty text for a missing or empty
    value, and what it returns never holds a markup character, an
    apostrophe or a capital T: the T of a timestamp has become a space and
    everything else went through [html.escape]. *)
Theorem format_datetime_clean (value : option string) (c : ascii) :
  markup_char c = true ∨ c = "'"%char ∨ c = "T"%char →
  occurrences c (_format_datetime value) = 0%nat
  ∧ _format_datetime None = ""
  ∧ _format_datetime (Some "") = "".
Proof.
  intros Hc. split; [|done]. by apply occurrences_format_datetime.
Qed.

Lemma format_datetime_clean_witness :
  occurrences "T" (_format_datetime (Some "2024-01-02T03:04:05<b>")) = 0%nat
  ∧ _format_datetime None = ""
  ∧ _format_datetime (Some "") = "".
Proof.
  apply (format_datetime_clean (Some "2024-01-02T03:04:05<b>") "T").
  right. right. reflexivity.
Defined.

Section render_facts.
Implicit Types (task : Task) (index : nat) (c : ascii).

(** The count of a markup character in a list item, spelled out; only the
    shape of the task enters. *)
Lemma render_task_count c task index :
  markup_char c = true →
  occurrences c (_render_task task index)
  = occurrences c
      (_render_task
         {| title := "";
            description := if (shape task).1.2 then "" else "d";
            completed := (shape task).1.1;
            created_at := "";
            completed_at := if (shape task).2 then Some "t" else None |}
         0).
Proof.
  intros Hc. unfold shape, _render_task. cbn [fst snd TaskStore.title
    TaskStore.description TaskStore.completed TaskStore.created_at
    TaskStore.completed_at].
  pose proof (occurrences_escape c) as Hesc.
  pose proof (occurrences_str_int_markup c) as Hint.
  pose proof (λ v, occurrences_format_datetime v c (or_introl Hc)) as Hfmt.
  destruct (completed task), (bool_decide (description task = "")) eqn:Ed,
    (completed_at task) as [at_|]; try destruct (bool_decide (at_ = "")) eqn:Et;
    cbn [negb andb];
    rewrite ?Ed, ?Et; cbn [negb andb];
    rewrite !occurrences_join_cons, ?occurrences_join_nil,
      ?Hesc, ?Hint, ?Hfmt by auto;
    destruct (markup_char_cases c Hc) as [->|[->| ->]]; reflexivity.
Qed.

Lemma render_task_nonempty task index : _render_task task index ≠ "".
Proof. done. Qed.

Lemma join_nonempty (s : string) (parts : list string) :
  s ≠ "" → Str.join "" (s :: parts) ≠ "".
Proof.
  destruct s as [|c' s]; [done|]. intros _.
  destruct parts as [|next parts]; [done|]. by rewrite join_cons2.
Qed.

Lemma items_count c (f g : nat → Task → string) (ts ts' : list Task) :
  (∀ i j t t', shape t = shape t' →
               occurrences c (f i t) = occurrences c (g j t')) →
  Forall2 (λ t t', shape t = shape t') ts ts' →
  occurrences c (Str.join "" (imap f ts))
  = occurrences c (Str.join "" (imap g ts')).
Proof.
  intros Hfg Hall. revert f g Hfg.
  induction Hall as [|t t' ts ts' Ht Hall IH]; intros f g Hfg; [done|].
  rewrite !imap_cons, !occurrences_join_cons.
  rewrite (Hfg 0%nat 0%nat t t' Ht). f_equal.
  apply IH. intros i j. apply Hfg.
Qed.

Lemma active_count_shape (ts ts' : list Task) :
  Forall2 (λ t t', shape t = shape t') ts ts' →
  length (filter (λ task, ¬ completed task) ts)
  = length (filter (λ task, ¬ completed task) ts').
Proof.
  induction 1 as [|t t' ts ts' Ht Hall IH]; [done|].
  rewrite !filter_cons. unfold shape in Ht.
  assert (completed t = completed t') as Hc by congruence.
  rewrite Hc. destruct (decide (¬ completed t')); simpl; by rewrite IH.
Qed.
End render_facts.

(** X17. The markup of a list item does not depend on what the task says:
    two tasks of the same shape (completed or not, description empty or
    not, completion time to show or not), at any two positions, are
    rendered with the same number of each of the characters [<], [>] and
    the double quote. Title, description and timestamps contribute none. *)
Theorem render_task_markup_fixed
    (c : ascii) (task task' : Task) (index index' : nat) :
  markup_char c = true →
  shape task = shape task' →
  occurrences c (_render_task task index)
  = occurrences c (_render_task task' index').
Proof.
  intros Hc Hshape.
  rewrite (render_task_count c task index Hc).
  rewrite (render_task_count c task' index' Hc).
  by rewrite Hshape.
Qed.

Lemma render_task_markup_fixed_witness :
  occurrences "<" (_render_task script_task 0)
  = occurrences "<" (_render_task task_a 7).
Proof.
  apply (render_task_markup_fixed "<" script_task task_a 0 7);
    reflexivity.
Defined.

(** X18. The markup of the index page does not depend on the texts it
    shows: two pages whose message and error are empty or not alike, and
    whose task lists have the same shapes position by position, hold the
    same number of each of the characters [<], [>] and the double quote.
    In particular a message or error taken from the query string cannot
    add a tag to the page. *)
Theorem index_page_markup_fixed
    (c : ascii) (message message' error error' : string)
    (ts ts' : list Task) :
  markup_char c = true →
  bool_decide (message = "") = bool_decide (message' = "") →
  bool_decide (error = "") = bool_decide (error' = "") →
  Forall2 (λ t t', shape t = shape t') ts ts' →
  occurrences c (index_page message error ts)
  = occurrences c (index_page message' error' ts').
Proof.
  intros Hc Hm He Hall. unfold index_page, alert. cbv zeta.
  rewrite (Forall2_length _ _ _ Hall), (active_count_shape _ _ Hall).
  rewrite Hm, He.
  set (items := Str.join "" (imap (λ index task, _render_task task index) ts)).
  set (items' :=
         Str.join "" (imap (λ index task, _render_task task index) ts')).
  pose proof (occurrences_escape c) as Hesc.
  pose proof (occurrences_str_int_markup c) as Hint.
  assert (occurrences c items = occurrences c items') as Hitems.
  { apply items_count; [|done]. intros i j t t' Ht.
    rewrite (render_task_count c t i Hc), (render_task_count c t' j Hc).
    by rewrite Ht. }
  assert (bool_decide (items = "") = bool_decide (items' = "")) as Hempty.
  { unfold items, items'. destruct Hall as [|t t' ts ts' _ _]; [done|].
    rewrite !imap_cons.
    rewrite !bool_decide_eq_false_2; [done|by apply join_nonempty..]. }
  rewrite Hempty. clearbody items items'.
  destruct (bool_decide (message' = "")), (bool_decide (error' = "")),
    (bool_decide ((length ts'
                   - length (filter (λ task, ¬ completed task) ts'))%nat
                  = 0%nat)),
    (bool_decide (items' = ""));
    cbn [Datatypes.app];
    rewrite !occurrences_join_cons, ?occurrences_join_nil,
      ?Hesc, ?Hint, ?Hitems by auto;
    reflexivity.
Qed.

Lemma index_page_markup_fixed_witness :
  occurrences "<" (index_page "<b>saved</b>" "" [script_task])
  = occurrences "<" (index_page "saved" "" [task_a]).
Proof.
  apply (index_page_markup_fixed "<" "<b>saved</b>" "saved" "" ""
           [script_task] [task_a]).
  - reflexivity.
  - reflexivity.
  - reflexivity.
  - repeat constructor.
Defined.

(** ** The whole application *)

Section app_facts.
Variable parse_qs : string → gmap string (list string).
Implicit Types (env : environ) (file : option content) (e : exn).





Lemma _handle_index_file now env file r file' :
  _handle_index parse_qs now env file = Done (r, file') → file' = file.
Proof.
  unfold _handle_index.
  destruct (first_value _ "message"); [|done].
  destruct (first_value _ "error"); [|done].
  destruct (TaskManager_init now file); try done. intros ?. congruence.
Qed.

End app_facts.

(** X19. A GET request never writes: whatever the path, the query and the
    file, if the application answers a GET, the file is the one it found. *)
Theorem get_never_writes
    (parse_qs : string → gmap string (list string)) (css : option string)
    (now : string) (env : environ) (file file' : option content)
    (r : response) :
  Str.upper (REQUEST_METHOD env) = "GET" →
  app parse_qs css now env file = Done (r, file') →
  file' = file.
Proof.
  intros Hmethod. unfold app, __call__. rewrite Hmethod.
  set (path := if bool_decide (PATH_INFO env = "") then "/" else PATH_INFO env).
  destruct (bool_decide (path = "/")); simpl.
  - apply _handle_index_file.
  - destruct (bool_decide (path = "/static/styles.css")); simpl.
    + unfold _handle_static. intros ?. congruence.
    + intros ?. congruence.
Qed.

Lemma get_never_writes_witness :
  ∃ r file',
    app (λ _, ∅) None "t5" get_static (storage three_task_store)
    = Done (r, file')
    ∧ file' = storage three_task_store.
Proof.
  eexists _, _. split; [reflexivity|].
  eapply (get_never_writes (λ _, ∅) None "t5" get_static).
  - reflexivity.
  - reflexivity.
Defined.



(** X21. A POST to /tasks/clear-completed, when the file loads, leaves on
    disk exactly the tasks that were not completed, in their order, and
    answers with the message redirect; the same request again, on the file
    it left, changes nothing. *)
Theorem web_clear_idempotent
    (_handle_index : environ → option content → reply)
    (_handle_static : option content → reply)
    (now later : string) (env : environ) (file : option content)
    (manager : TaskManager) :
  Str.upper (REQUEST_METHOD env) = "POST" →
  PATH_INFO env = "/tasks/clear-completed" →
  TaskManager_init now file = Done manager →
  ∃ file',
    __call__ _handle_index _handle_static now env file
    = Done (_redirect "Completed tasks cleared." "", file')
    ∧ file' = Some (dump (list_tasks false manager))
    ∧ __call__ _handle_index _handle_static later env file'
      = Done (_redirect "Completed tasks cleared." "", file').
Proof.
  intros Hmethod Hpath Hinit. eexists. split_and!; [|done|].
  - unfold __call__. rewrite Hmethod, Hpath. simpl.
    unfold _handle_clear. by rewrite Hinit.
  - unfold __call__. rewrite Hmethod, Hpath. simpl.
    unfold _handle_clear. rewrite init_dump.
    unfold clear_completed, save, with_tasks, list_tasks. simpl.
    by rewrite filter_active_twice.
Qed.

Lemma web_clear_idempotent_witness :
  ∃ file',
    __call__ (λ _ _, Untyped) (λ _, Untyped) "t5" clear_post
      (storage mixed_store)
    = Done (_redirect "Completed tasks cleared." "", file')
    ∧ file' = Some (dump (list_tasks false mixed_store))
    ∧ __call__ (λ _ _, Untyped) (λ _, Untyped) "t6" clear_post file'
      = Done (_redirect "Completed tasks cleared." "", file').
Proof.
  apply (web_clear_idempotent _ _ "t5" "t6" clear_post (storage mixed_store)
           mixed_store); reflexivity.
Defined.

(** X22. Completing on the command line shows in the next listing: with an
    index in bounds, [complete] reports the task's title, and the next
    run's [list --all] prints the line of that position for the completed
    task, every other line being the one a listing printed before. *)
Theorem main_complete_then_list
    (now later : string) (index : Z) (file : option content)
    (manager : TaskManager) :
  TaskManager_init now file = Done manager →
  in_bounds (length (tasks manager)) index →
  let i := resolved (length (tasks manager)) index in
  ∃ task file' before after,
    tasks manager !! i = Some task
    ∧ main now (Complete index) file
      = Done ([str ("Completed task: " +:+ title task)], file')
    ∧ main now (List true) file = Done (before, file)
    ∧ main later (List true) file' = Done (after, file')
    ∧ after !! i = Some (list_line i (complete now task))
    ∧ ∀ j, j ≠ i → after !! j = before !! j.
Proof.
  intros Hinit Hin i.
  destruct (complete_task_in_bounds now index manager Hin) as (task & Hat & Hc).
  fold i in Hat, Hc.
  pose proof (init_storage _ _ _ Hinit) as Hfile.
  assert (tasks manager ≠ []) as Hne by (intros E; by rewrite E in Hat).
  exists task, (Some (dump (<[i := complete now task]> (tasks manager)))),
    (imap list_line (tasks manager)),
    (imap list_line (<[i := complete now task]> (tasks manager))).
  split_and!.
  - done.
  - unfold main, run. rewrite Hinit, Hc. simpl.
    by destruct (complete_fields now task) as (-> & _).
  - unfold main, run. rewrite Hinit. simpl.
    by rewrite listing_lines, Hfile.
  - unfold main, run. rewrite init_dump. simpl.
    rewrite listing_lines; [done|].
    intros E. apply (f_equal length) in E.
    rewrite length_insert in E. by destruct (tasks manager).
  - rewrite list_lookup_imap, list_lookup_insert_eq; [done|].
    by eapply lookup_lt_Some.
  - intros j Hj. rewrite !list_lookup_imap.
    by rewrite list_lookup_insert_ne.
Qed.

Lemma main_complete_then_list_witness :
  ∃ task file' before after,
    tasks three_task_store !! 1%nat = Some task
    ∧ main "t5" (Complete 1) (storage three_task_store)
      = Done ([str ("Completed task: " +:+ title task)], file')
    ∧ main "t5" (List true) (storage three_task_store)
      = Done (before, storage three_task_store)
    ∧ main "t6" (List true) file' = Done (after, file')
    ∧ after !! 1%nat = Some (list_line 1 (complete "t5" task))
    ∧ ∀ j, j ≠ 1%nat → after !! j = before !! j.
Proof.
  apply (main_complete_then_list "t5" "t6" 1 (storage three_task_store)
           three_task_store).
  - reflexivity.
  - unfold in_bounds. simpl. lia.
Defined.
